(** * Golden-tree comparison helper of adsys (internal/testutils/files.go)

    A shallow embedding of [CompareTreesWithFiltering], [addEmptyMarker],
    [treeContent], [ignoreDconfDB] and [MakeReadOnly], together with the
    properties the specification states about them.

    Modelling choices.
    - A directory tree is a [node]; a directory lists its entries in the
      order [os.ReadDir] returns them (sorted by file name), which is the
      order [filepath.Walk], [filepath.WalkDir] and [shutil.CopyTree] visit
      them in.
    - The file system is a finite map from root paths to the tree mounted
      there; two roots are unrelated locations, neither below the other,
      and a root that exists is itself a directory or a file, not a
      symbolic link.  Root paths are cleaned paths, as [filepath.Join] and
      [t.TempDir] produce them; the path functions below are exact on
      cleaned paths and file names.  No path has a metacharacter of
      [filepath.Glob], so that the pattern of line 102 is matched
      literally up to its last element.
    - A non-directory entry carries the result of [os.ReadFile] on it:
      [Some d], or [None] when reading fails.  Whether it is a symbolic
      link is not part of the tree: the copy asks [os.Lstat], an oracle of
      type [kinds], which for a symbolic link also tells what is read
      through a link with the same text at the destination.
    - [shutil.CopyTree] stops at the first entry it cannot copy and leaves
      what it has written.  A regular file that cannot be read cannot be
      copied; a symbolic link is re-created, whatever it leads to.
    - The calls that only fail on a broken environment ([os.RemoveAll],
      listing a directory, creating a directory, a file or a link in a
      directory just created, [filepath.Glob] on a well-formed pattern) do
      not fail.
    - [testing.T] is modelled by the outcome of the call: the soft failures
      recorded ([assert]) and whether a fatal one stopped the test
      ([require], [t.Fatalf]). *)

From Stdlib Require Import String Ascii.
From stdpp Require Import base option list strings gmap.

Local Open Scope string_scope.
Local Open Scope list_scope.

(** ** Path and string functions of the Go standard library *)

Module Path.

Definition is_sep (c : ascii) : bool := Ascii.eqb c "/"%char.

Fixpoint has_sep (s : string) : bool :=
  match s with
  | EmptyString => false
  | String c r => is_sep c || has_sep r
  end.

(** The text after the last separator. *)
Fixpoint lastElem (s : string) : string :=
  match s with
  | EmptyString => EmptyString
  | String c r =>
      if has_sep r then lastElem r
      else if is_sep c then r else String c r
  end.

(** Trailing separators removed. *)
Fixpoint stripSeps (s : string) : string :=
  match s with
  | EmptyString => EmptyString
  | String c r =>
      match stripSeps r with
      | EmptyString => if is_sep c then EmptyString else String c EmptyString
      | r' => String c r'
      end
  end.

(** [filepath.Base]. *)
Definition Base (path : string) : string :=
  match path with
  | EmptyString => "."
  | _ =>
      match stripSeps path with
      | EmptyString => "/"
      | p => lastElem p
      end
  end.

(** The text before the last separator, if there is one. *)
Fixpoint beforeLastSep (s : string) : option string :=
  match s with
  | EmptyString => None
  | String c r =>
      match beforeLastSep r with
      | Some d => Some (String c d)
      | None => if is_sep c then Some EmptyString else None
      end
  end.

(** [filepath.Dir], on a cleaned path. *)
Definition Dir (path : string) : string :=
  match beforeLastSep path with
  | None => "."
  | Some EmptyString => "/"
  | Some d => d
  end.

(** [filepath.Join] of a cleaned path and a file name, where the result
    needs no cleaning.  On another first argument (a trailing or doubled
    separator, an element [.] or [..]) the library cleans the result and
    this function does not. *)
Definition Join (p name : string) : string :=
  if String.eqb p "" then name
  else if String.eqb p "." then name
  else if String.eqb p "/" then "/" +:+ name
  else p +:+ "/" +:+ name.

(** [s] without the leading [pre], when it starts with it. *)
Fixpoint stripPrefix (pre s : string) : option string :=
  match pre with
  | EmptyString => Some s
  | String a pre' =>
      match s with
      | EmptyString => None
      | String b s' => if Ascii.eqb a b then stripPrefix pre' s' else None
      end
  end.

(** [strings.TrimPrefix]. *)
Definition TrimPrefix (s pre : string) : string :=
  default s (stripPrefix pre s).

(** [bytes.HasPrefix]. *)
Definition HasPrefix (s pre : string) : bool :=
  bool_decide (is_Some (stripPrefix pre s)).

(** [s] without the trailing [suf], when it ends with it. *)
Fixpoint stripSuffix (suf s : string) : option string :=
  if String.eqb s suf then Some EmptyString
  else match s with
       | EmptyString => None
       | String c r => String c <$> stripSuffix suf r
       end.

(** [strings.TrimSuffix]. *)
Definition TrimSuffix (s suf : string) : string :=
  default s (stripSuffix suf s).

(** [filepath.Match] with the pattern [*.d], on a file name. *)
Definition matchStarD (name : string) : bool :=
  negb (has_sep name) && bool_decide (is_Some (stripSuffix ".d" name)).

End Path.

(** ** Directory trees and the file system *)

#[local] Unset Elimination Schemes.
Inductive node : Type :=
  | File (d : option string)
  | Dir (entries : list (string * node)).
#[local] Set Elimination Schemes.

(** Induction on a tree, with the property available for every entry of a
    directory. *)
Fixpoint node_tree_ind (P : node -> Prop)
    (HFile : forall d, P (File d))
    (HDir : forall es, Forall (fun e => P e.2) es -> P (Dir es))
    (n : node) : P n :=
  match n with
  | File d => HFile d
  | Dir es =>
      HDir es
        ((fix entries_ind (es : list (string * node)) : Forall (fun e => P e.2) es :=
            match es with
            | [] => List.Forall_nil _
            | e :: r => List.Forall_cons _ e r (node_tree_ind P HFile HDir e.2) (entries_ind r)
            end) es)
  end.

Definition IsDir (n : node) : bool :=
  match n with Dir _ => true | File _ => false end.

(** The file system: the tree mounted at each root path. *)
Abbreviation fsys := (gmap string node).

(** The (path, info) pairs [filepath.Walk] hands to its callback, in
    order: a directory, then each entry's subtree. *)
Fixpoint walk (path : string) (n : node) : list (string * node) :=
  (path, n) ::
  match n with
  | File _ => []
  | Dir es =>
      (fix walkEntries (es : list (string * node)) : list (string * node) :=
         match es with
         | [] => []
         | (name, c) :: r => walk (Path.Join path name) c ++ walkEntries r
         end) es
  end.

(** The callback is run on each pair in turn; the first error stops the
    walk and is returned. *)
Fixpoint walkM {S : Type} (fn : S -> string * node -> option S)
    (s : S) (items : list (string * node)) : option S :=
  match items with
  | [] => Some s
  | it :: r =>
      match fn s it with
      | Some s' => walkM fn s' r
      | None => None
      end
  end.

Definition fileForEmptyDir : string := ".empty".

Definition magic : string := "GVariant".

(** ** treeContent *)

(** The callback of [treeContent]. *)
Definition treeContentFn (dir : string) (ignoreHeaders : option string)
    (r : gmap string string) (it : string * node) : option (gmap string string) :=
  let '(path, info) := it in
  if decide (Path.Base path = fileForEmptyDir) then Some r
  else
    match info with
    | Dir _ => Some (<[Path.TrimPrefix path dir := ""]> r)
    | File None => None
    | File (Some d) =>
        match ignoreHeaders with
        | Some h =>
            if Path.HasPrefix d h then Some r
            else Some (<[Path.TrimPrefix path dir := d]> r)
        | None => Some (<[Path.TrimPrefix path dir := d]> r)
        end
    end.

(** [treeContent dir n ignoreHeaders], for the tree [n] found at [dir]:
    the snapshot, or [None] for an error. *)
Definition treeContent (dir : string) (n : node)
    (ignoreHeaders : option string) : option (gmap string string) :=
  walkM (treeContentFn dir ignoreHeaders) ∅ (walk dir n).

(** ** ignoreDconfDB *)

(** The names of the entries of [src] to leave out of the copy.  The
    content read at [filepath.Join(src, e.Name())] is the entry's own. *)
Fixpoint ignoreDconfDB (src : string) (entries : list (string * node)) : list string :=
  match entries with
  | [] => []
  | (name, e) :: rest =>
      match e with
      | Dir _ => ignoreDconfDB src rest
      | File None => ignoreDconfDB src rest
      | File (Some d) =>
          if Path.HasPrefix d magic then name :: ignoreDconfDB src rest
          else ignoreDconfDB src rest
      end
  end.

(** ** shutil.CopyTree, with [Symlinks: true], [Ignore: ignoreDconfDB] and
    [CopyFunction: shutil.Copy] *)

(** What [os.Lstat] tells [CopyTree] about a non-directory entry.  For a
    symbolic link, [reread dst] is what [os.ReadFile] gives on a link
    with the same text created at [dst]. *)
Inductive entryKind : Type :=
  | Regular
  | Symlink (reread : string -> option string).

(** The kind of the non-directory entry at each path. *)
Abbreviation kinds := (string -> entryKind).

Definition allRegular : kinds := fun _ => Regular.

(** The copy of one non-directory entry that reads [d]: a symbolic link
    is re-created with its text ([os.Symlink]); a regular file goes to
    [shutil.Copy], which copies its bytes and fails when it cannot open
    it.  [None] is the failure, [Some d'] what the new entry reads. *)
Definition copyFile (k : entryKind) (dstPath : string) (d : option string)
    : option (option string) :=
  match k with
  | Symlink reread => Some (reread dstPath)
  | Regular =>
      match d with
      | Some bytes => Some (Some bytes)
      | None => None
      end
  end.

(** The loop of [CopyTree] over the entries of a directory: those named
    by the ignore function are skipped, directories are copied
    recursively, and the first failure stops the copy, with what was
    written until then left in place.  The result is the tree written at
    the destination and whether the copy succeeded.  [CopyTree] is only
    called on directories, at the root and below. *)
Fixpoint copyNode (lstat : kinds) (src dst : string) (n : node) : node * bool :=
  match n with
  | File d => (File d, true)
  | Dir es =>
      let ignoredNames := ignoreDconfDB src es in
      let '(copied, ok) :=
        (fix copyEntries (es : list (string * node))
             : list (string * node) * bool :=
           match es with
           | [] => ([], true)
           | (name, c) :: rest =>
               if bool_decide (name ∈ ignoredNames) then copyEntries rest
               else
                 match c with
                 | Dir _ =>
                     let '(c', ok) :=
                       copyNode lstat (Path.Join src name) (Path.Join dst name) c in
                     if ok then
                       let '(r, okr) := copyEntries rest in ((name, c') :: r, okr)
                     else ([(name, c')], false)
                 | File d =>
                     match copyFile (lstat (Path.Join src name))
                             (Path.Join dst name) d with
                     | Some d' =>
                         let '(r, okr) := copyEntries rest in
                         ((name, File d') :: r, okr)
                     | None => ([], false)
                     end
                 end
           end) es in
      (Dir copied, ok)
  end.

(** [CopyTree src dst]: an error, with nothing written, when [src] is
    missing or is not a directory, or when [dst] exists; else the tree
    that the copy writes at [dst] and whether it succeeded. *)
Definition CopyTree (lstat : kinds) (src dst : string) (fs : fsys) : fsys * bool :=
  match fs !! src with
  | Some (Dir es) =>
      match fs !! dst with
      | Some _ => (fs, false)
      | None =>
          let '(c, ok) := copyNode lstat src dst (Dir es) in
          (<[dst := c]> fs, ok)
      end
  | _ => (fs, false)
  end.

(** The loop of [copyNode], on its own. *)
Fixpoint copyEntriesOf (lstat : kinds) (src dst : string) (ignoredNames : list string)
    (es : list (string * node)) : list (string * node) * bool :=
  match es with
  | [] => ([], true)
  | (name, c) :: rest =>
      if bool_decide (name ∈ ignoredNames)
      then copyEntriesOf lstat src dst ignoredNames rest
      else
        match c with
        | Dir _ =>
            let '(c', ok) :=
              copyNode lstat (Path.Join src name) (Path.Join dst name) c in
            if ok then
              let '(r, okr) := copyEntriesOf lstat src dst ignoredNames rest in
              ((name, c') :: r, okr)
            else ([(name, c')], false)
        | File d =>
            match copyFile (lstat (Path.Join src name)) (Path.Join dst name) d with
            | Some d' =>
                let '(r, okr) := copyEntriesOf lstat src dst ignoredNames rest in
                ((name, File d') :: r, okr)
            | None => ([], false)
            end
        end
  end.

(** The tree that the copy writes when no entry fails and every entry it
    keeps reads in the copy as it does in the source. *)
Fixpoint copyKept (src : string) (n : node) : node :=
  match n with
  | File d => File d
  | Dir es =>
      let ignoredNames := ignoreDconfDB src es in
      Dir ((fix copyEntries (es : list (string * node)) : list (string * node) :=
              match es with
              | [] => []
              | (name, c) :: rest =>
                  if bool_decide (name ∈ ignoredNames) then copyEntries rest
                  else (name, copyKept (Path.Join src name) c) :: copyEntries rest
              end) es)
  end.

(** ** addEmptyMarker *)

(** The walk visits every directory and creates the marker in those that
    have no entry; the entries of a directory are listed before the
    callback runs on it, so a marker is never itself visited. *)
Fixpoint addMarkerNode (n : node) : node :=
  match n with
  | File d => File d
  | Dir [] => Dir [(fileForEmptyDir, File (Some ""))]
  | Dir es =>
      Dir ((fix markEntries (es : list (string * node)) : list (string * node) :=
              match es with
              | [] => []
              | (name, c) :: rest => (name, addMarkerNode c) :: markEntries rest
              end) es)
  end.

Definition addEmptyMarker (p : string) (fs : fsys) : option fsys :=
  match fs !! p with
  | Some n => Some (<[p := addMarkerNode n]> fs)
  | None => None
  end.

(** ** CompareTreesWithFiltering *)

Abbreviation snapshot := (option (gmap string string)).

(** Soft failures ([assert]): the test goes on. *)
Inductive failure : Type :=
  | ContentDiffers (goldContent gotContent : snapshot)
  | NoBinaryDB (path : string).

(** Fatal failures ([require], [t.Fatalf]): the test stops. *)
Inductive fatal : Type :=
  | CannotCopy
  | CannotAddMarker
  | NoGeneratedContent
  | NoGoldenDirectory
  | CannotFindDconf.

Inductive outcome : Type :=
  | Returned (fs : fsys) (failures : list failure)
  | Stopped (fs : fsys) (failures : list failure) (why : fatal).

(** [os.Stat] and directory listing below the tree mounted at [root], for a
    path written as the walk writes it.  The check of lines 102 to 107,
    its only user, runs after [treeContent] has read every entry of the
    tree not named as the marker, so [os.Stat] succeeds on the entries it
    is asked about. *)
Definition statIn (root : string) (n : node) (path : string) : option node :=
  snd <$> List.find (fun it => String.eqb it.1 path) (walk root n).

(** [filepath.Glob(filepath.Join(dir, "*.d"))] for a [dir] without
    metacharacter: nothing unless [dir] is a directory, else its matching
    entries in order. *)
Definition GlobStarD (root : string) (n : node) (dir : string) : list string :=
  match statIn root n dir with
  | Some (Dir es) =>
      Path.Join dir <$> (List.filter Path.matchStarD (fst <$> es))
  | _ => []
  end.

(** The callback of the search for the dconf directory; [info.Name()] is
    the last element of the path. *)
Definition dconfDirFn (dconfDir : string) (it : string * node) : option string :=
  let '(p, info) := it in
  if negb (IsDir info) then Some dconfDir
  else if decide (Path.Base p = "db") then Some (Path.Dir p)
  else Some dconfDir.

Definition findDconfDir (p : string) (n : node) : option string :=
  walkM dconfDirFn p (walk p n).

(** The check of one match of the glob. *)
Definition checkDB (root : string) (n : node) (db : string) : list failure :=
  match statIn root n (Path.TrimSuffix db ".db") with
  | Some _ => []
  | None => [NoBinaryDB (Path.TrimSuffix db ".db")]
  end.

(** Lines 84 to 107: the check that each [<DB>.d] has its binary. *)
Definition checkDconfDBs (p : string) (n : node) (fs : fsys)
    (failures : list failure) : outcome :=
  match findDconfDir p n with
  | None => Stopped fs failures CannotFindDconf
  | Some dconfDir =>
      let dbs := GlobStarD p n (Path.Join dconfDir "db") in
      Returned fs (failures ++ concat (checkDB p n <$> dbs))
  end.

(** Lines 62 to 68 and 70 to 76: the snapshot of the tree at [path], nil
    when nothing is there; [None] when [treeContent] has an error. *)
Definition snapshotAt (fs : fsys) (path : string) (ignoreHeaders : option string)
    : option snapshot :=
  match fs !! path with
  | Some n =>
      match treeContent path n ignoreHeaders with
      | Some r => Some (Some r)
      | None => None
      end
  | None => Some None
  end.

(** Lines 61 to 108: the comparison and what follows it. *)
Definition compareTrees (p goldPath : string) (fs : fsys) : outcome :=
  match snapshotAt fs p (Some magic) with
  | None => Stopped fs [] NoGeneratedContent
  | Some gotContent =>
      match snapshotAt fs goldPath None with
      | None => Stopped fs [] NoGoldenDirectory
      | Some goldContent =>
          let failures :=
            if decide (goldContent = gotContent) then []
            else [ContentDiffers goldContent gotContent] in
          match fs !! p with
          | None => Returned fs failures
          | Some n => checkDconfDBs p n fs failures
          end
      end
  end.

Definition CompareTreesWithFiltering (lstat : kinds) (p goldPath : string)
    (update : bool) (fs : fsys) : outcome :=
  if update then
    let fs1 := delete goldPath fs in
    match fs1 !! p with
    | None => Returned fs1 []
    | Some _ =>
        let '(fs2, ok) := CopyTree lstat p goldPath fs1 in
        if ok then
          match addEmptyMarker goldPath fs2 with
          | None => Stopped fs2 [] CannotAddMarker
          | Some fs3 => compareTrees p goldPath fs3
          end
        else Stopped fs2 [] CannotCopy
    end
  else compareTrees p goldPath fs.

(** ** Well-formed input *)

(** A file name: not empty, without separator, and neither [.] nor
    [..]. *)
Definition validName (name : string) : bool :=
  negb (String.eqb name "") && negb (Path.has_sep name)
  && negb (String.eqb name ".") && negb (String.eqb name "..").

(** A root path other than the three on which [filepath.Join] does not
    insert a separator. *)
Definition plainPath (p : string) : bool :=
  negb (String.eqb p "") && negb (String.eqb p ".") && negb (String.eqb p "/").

(** The names of a directory are valid and distinct, at every level. *)
Fixpoint wfNode (n : node) : bool :=
  match n with
  | File _ => true
  | Dir es =>
      forallb validName (fst <$> es)
      && bool_decide (NoDup (fst <$> es))
      && (fix wfEntries (es : list (string * node)) : bool :=
            match es with
            | [] => true
            | (_, c) :: rest => wfNode c && wfEntries rest
            end) es
  end.

(** Every non-directory entry can be read. *)
Fixpoint readable (n : node) : bool :=
  match n with
  | File d => bool_decide (is_Some d)
  | Dir es =>
      (fix readableEntries (es : list (string * node)) : bool :=
         match es with
         | [] => true
         | (_, c) :: rest => readable c && readableEntries rest
         end) es
  end.

(** ** The entries of a copy *)

(** A readable file that starts with the magic prefix. *)
Definition isBinaryDB (n : node) : bool :=
  match n with
  | File (Some d) => Path.HasPrefix d magic
  | _ => false
  end.

(** The entries [CopyTree] does not skip. *)
Definition keepEntry (ignoredNames : list string) (e : string * node) : bool :=
  negb (bool_decide (e.1 ∈ ignoredNames)).

Definition copyEntry (src : string) (e : string * node) : string * node :=
  (e.1, copyKept (Path.Join src e.1) e.2).

Definition markEntry (e : string * node) : string * node :=
  (e.1, addMarkerNode e.2).

Definition emptyMarker : string * node := (fileForEmptyDir, File (Some "")).

(** The golden tree that update mode writes for the actual tree [n], when
    the copy is [copyKept]. *)
Definition goldenOf (src : string) (n : node) : node :=
  addMarkerNode (copyKept src n).

Definition entriesOf (n : node) : list (string * node) :=
  match n with
  | Dir es => es
  | File _ => []
  end.

(** No file of the tree is a binary database. *)
Fixpoint hasNoBinaryDB (n : node) : bool :=
  negb (isBinaryDB n)
  && match n with
     | File _ => true
     | Dir es =>
         (fix noBinaryEntries (es : list (string * node)) : bool :=
            match es with
            | [] => true
            | (_, c) :: rest => hasNoBinaryDB c && noBinaryEntries rest
            end) es
     end.

(** What can follow a path in the walk below it: nothing, or a separator
    and more. *)
Definition pathTail (s : string) : Prop := s = "" \/ exists t, s = "/" +:+ t.

(** The file system an outcome leaves. *)
Definition fsOf (o : outcome) : fsys :=
  match o with
  | Returned fs _ => fs
  | Stopped fs _ _ => fs
  end.

(** ** Relative walks *)

(** The walk of a tree with each path relative to the root: empty at the
    root, and a separator and a name longer at each level. *)
Fixpoint rwalk (rel : string) (n : node) : list (string * node) :=
  (rel, n) ::
  match n with
  | File _ => []
  | Dir es =>
      (fix rwalkEntries (es : list (string * node)) : list (string * node) :=
         match es with
         | [] => []
         | (name, c) :: r => rwalk (rel +:+ "/" +:+ name) c ++ rwalkEntries r
         end) es
  end.

(** The snapshot computed on relative paths. *)
Definition relContent (n : node) (ignoreHeaders : option string)
    : option (gmap string string) :=
  walkM (treeContentFn "" ignoreHeaders) ∅ (rwalk "" n).

(** A relative path that ends in a separator and a file name. *)
Definition entryPath (rel : string) : Prop :=
  exists a name, rel = a +:+ "/" +:+ name /\ validName name = true.

(** ** The search for the dconf directory, in the words of the specification *)

Definition isDbDir (it : string * node) : bool :=
  IsDir it.2 && bool_decide (Path.Base it.1 = "db").

(** The directories named [db] of a tree, in the order of the walk. *)
Definition dbDirs (p : string) (n : node) : list (string * node) :=
  List.filter isDbDir (walk p n).

(** The depth of a path: its number of separators. *)
Fixpoint depth (path : string) : nat :=
  match path with
  | EmptyString => 0
  | String c r => (if Path.is_sep c then 1 else 0) + depth r
  end.

(** The deepest of the items, the last one among equally deep ones. *)
Fixpoint deepest (best : option (string * node)) (items : list (string * node))
    : option (string * node) :=
  match items with
  | [] => best
  | it :: r =>
      match best with
      | Some b => if decide (depth b.1 <= depth it.1) then deepest (Some it) r
                  else deepest best r
      | None => deepest (Some it) r
      end
  end.

(** Follows the specification: the parent of the deepest directory named
    [db], the last match winning, or the root when there is none. *)
Definition specDconfDir (p : string) (n : node) : string :=
  match deepest None (dbDirs p n) with
  | Some it => Path.Dir it.1
  | None => p
  end.

(** ** Roots and trees on which the embedding is exact *)

(** The elements of a path: the text between separators. *)
Fixpoint splitSep (s : string) : list string :=
  match s with
  | EmptyString => [EmptyString]
  | String c r =>
      if Path.is_sep c then EmptyString :: splitSep r
      else match splitSep r with
           | [] => [String c EmptyString]
           | x :: xs => String c x :: xs
           end
  end.

(** A cleaned root path, rooted or not, made of valid names only: no
    empty, [.] or [..] element, so no trailing or doubled separator. *)
Definition cleanRoot (p : string) : bool :=
  match splitSep p with
  | EmptyString :: c :: comps => forallb validName (c :: comps)
  | comps => forallb validName comps
  end.

(** The metacharacters of [filepath.Glob]. *)
Definition isMeta (c : ascii) : bool :=
  Ascii.eqb c "*" || Ascii.eqb c "?" || Ascii.eqb c "[" || Ascii.eqb c "\".

Fixpoint hasMeta (s : string) : bool :=
  match s with
  | EmptyString => false
  | String c r => isMeta c || hasMeta r
  end.

(** No name of the tree has a glob metacharacter. *)
Fixpoint noMetaNames (n : node) : bool :=
  match n with
  | File _ => true
  | Dir es =>
      (fix noMetaEntries (es : list (string * node)) : bool :=
         match es with
         | [] => true
         | (name, c) :: rest =>
             negb (hasMeta name) && noMetaNames c && noMetaEntries rest
         end) es
  end.

(** Neither of two distinct paths lies below the other. *)
Definition notNested (p q : string) : bool :=
  negb (Path.HasPrefix q (p +:+ "/")) && negb (Path.HasPrefix p (q +:+ "/")).

(** Every non-directory entry of the tree that is not a binary database
    is copied without failure and reads in the copy as it does in the
    source: a regular file that can be read, or a symbolic link whose
    text leads to the same result from the destination. *)
Fixpoint copiedAsRead (lstat : kinds) (src dst : string) (n : node) : bool :=
  match n with
  | File _ => true
  | Dir es =>
      (fix entriesAsRead (es : list (string * node)) : bool :=
         match es with
         | [] => true
         | (name, c) :: rest =>
             match c with
             | File d =>
                 isBinaryDB c
                 || bool_decide (copyFile (lstat (Path.Join src name))
                                   (Path.Join dst name) d = Some d)
             | Dir _ =>
                 copiedAsRead lstat (Path.Join src name) (Path.Join dst name) c
             end
             && entriesAsRead rest
         end) es
  end.

(** The condition of [copiedAsRead] on one entry. *)
Definition entryAsRead (lstat : kinds) (src dst : string) (e : string * node) : bool :=
  match e.2 with
  | File d =>
      isBinaryDB e.2
      || bool_decide (copyFile (lstat (Path.Join src e.1)) (Path.Join dst e.1) d
                      = Some d)
  | Dir _ => copiedAsRead lstat (Path.Join src e.1) (Path.Join dst e.1) e.2
  end.

(** ** The calls on [testing.T] that a call makes *)




(** What the callback of [treeContent] records for an entry that is not
    named as the marker: the empty string for a directory, the content for
    a file that is read and not filtered, nothing otherwise. *)
Definition recordedAs (ignoreHeaders : option string) (info : node) : option string :=
  match info with
  | Dir _ => Some ""
  | File None => None
  | File (Some d) =>
      match ignoreHeaders with
      | Some h => if Path.HasPrefix d h then None else Some d
      | None => Some d
      end
  end.

(** The soft failures an outcome holds. *)
Definition failuresOf (o : outcome) : list failure :=
  match o with
  | Returned _ failures => failures
  | Stopped _ failures _ => failures
  end.


(** ** MakeReadOnly *)

(** The permission bits of each existing path: what [os.Chmod] sets and
    what it reads back from [fi.Mode()]. *)
Abbreviation modes := (gmap string N).

(** A function registered with [t.Cleanup]: the closure of lines 29 to 32,
    which holds the path and the mode to restore. *)
Record cleanup : Type := { cleanupDest : string; cleanupMode : N }.

(** The state of a test: the modes, and the registered functions, the
    last one first. *)
Record testState : Type := { perms : modes; cleanups : list cleanup }.

(** The mode [0444]. *)
Definition readOnlyMode : N := 292.

(** [os.Chmod] on a path that is not a symbolic link and whose mode the
    test may change: an error on a missing path only. *)
Definition Chmod (dest : string) (mode : N) (ms : modes) : option modes :=
  match ms !! dest with
  | Some _ => Some (<[dest := mode]> ms)
  | None => None
  end.

(** [MakeReadOnly t dest]; [None] when a [require] stops the test, which
    happens before anything is changed. *)
Definition MakeReadOnly (dest : string) (st : testState) : option testState :=
  match perms st !! dest with
  | None => None
  | Some mode =>
      match Chmod dest readOnlyMode (perms st) with
      | None => None
      | Some ms =>
          Some {| perms := ms;
                  cleanups := {| cleanupDest := dest; cleanupMode := mode |}
                              :: cleanups st |}
      end
  end.

(** Several calls in a row. *)
Fixpoint makeAllReadOnly (dests : list string) (st : testState) : option testState :=
  match dests with
  | [] => Some st
  | dest :: rest =>
      match MakeReadOnly dest st with
      | Some st' => makeAllReadOnly rest st'
      | None => None
      end
  end.

(** The end of the test: the registered functions run, the last one
    first, and all of them even when one fails; the result is the modes
    left and whether every [require.NoError] passed. *)
Fixpoint runCleanups (cs : list cleanup) (ms : modes) : modes * bool :=
  match cs with
  | [] => (ms, true)
  | c :: rest =>
      match Chmod (cleanupDest c) (cleanupMode c) ms with
      | Some ms' => runCleanups rest ms'
      | None => ((runCleanups rest ms).1, false)
      end
  end.

(** A tree used in the examples: a file, a dconf directory with a binary
    database and the directory it was compiled from, and an empty
    directory. *)
Definition tree1 : node :=
  Dir [("a", File (Some "x"));
       ("db", Dir [("sub", File (Some "GVariant123")); ("sub.d", Dir [])]);
       ("e", Dir [])].

(** * Properties *)

(** ** The embedding on concrete inputs *)

Example base_1 : Path.Base "/tmp/a/.empty" = ".empty". Proof. reflexivity. Qed.
Example base_2 : Path.Base "/tmp/a//" = "a". Proof. reflexivity. Qed.
Example dir_1 : Path.Dir "/tmp/a/db" = "/tmp/a". Proof. reflexivity. Qed.
Example dir_2 : Path.Dir "db" = ".". Proof. reflexivity. Qed.
Example trim_1 : Path.TrimSuffix "/t/db/sub.d" ".db" = "/t/db/sub.d".
Proof. reflexivity. Qed.
Example trim_2 : Path.TrimSuffix "/t/db/sub.db" ".db" = "/t/db/sub".
Proof. reflexivity. Qed.
Example match_1 : Path.matchStarD "sub.d" = true. Proof. reflexivity. Qed.
Example tc_1 :
  treeContent "/t" (Dir [("a", File (Some "x")); ("b", File (Some "GVariantzz"));
                         ("c", Dir [(".empty", File (Some ""))])]) (Some magic)
  = Some (<["/c" := ""]> (<["/a" := "x"]> (<["" := ""]> ∅))).
Proof. vm_compute. reflexivity. Qed.

Example cmp_1 :
  match CompareTreesWithFiltering allRegular "/t" "/g" true {[ "/t" := tree1 ]} with
  | Returned fs fl => (fs !! "/g", fl)
  | Stopped fs fl _ => (None, fl)
  end =
  (Some (Dir [("a", File (Some "x"));
              ("db", Dir [("sub.d", Dir [(".empty", File (Some ""))])]);
              ("e", Dir [(".empty", File (Some ""))])]), []).
Proof. vm_compute. reflexivity. Qed.

(** ** Strings and paths *)

Section path_facts.

#[local] Arguments String.append !_ _ / : simpl nomatch.

Lemma append_assoc (a b c : string) : (a +:+ b) +:+ c = a +:+ (b +:+ c).
Proof. induction a as [|x a IH]; simpl; [done | by rewrite IH]. Qed.

Lemma append_nil_r (a : string) : a +:+ "" = a.
Proof. induction a as [|x a IH]; simpl; [done | by rewrite IH]. Qed.

Lemma stripPrefix_app (pre s : string) : Path.stripPrefix pre (pre +:+ s) = Some s.
Proof.
  induction pre as [|a pre IH]; simpl; [done|].
  by rewrite Ascii.eqb_refl.
Qed.

Lemma TrimPrefix_app (pre s : string) : Path.TrimPrefix (pre +:+ s) pre = s.
Proof. unfold Path.TrimPrefix. by rewrite stripPrefix_app. Qed.

Lemma TrimPrefix_self (pre : string) : Path.TrimPrefix pre pre = "".
Proof. rewrite <- (append_nil_r pre) at 1. apply TrimPrefix_app. Qed.

Lemma has_sep_app (a b : string) :
  Path.has_sep (a +:+ b) = Path.has_sep a || Path.has_sep b.
Proof.
  induction a as [|x a IH]; simpl; [done|].
  rewrite IH. by destruct (Path.is_sep x).
Qed.

Lemma stripSeps_no_sep (s : string) : Path.has_sep s = false -> Path.stripSeps s = s.
Proof.
  induction s as [|c s IH]; simpl; [done|].
  intros [Hc Hs]%orb_false_elim. rewrite (IH Hs), Hc. by destruct s.
Qed.

Lemma stripSeps_app (a b : string) :
  b <> "" -> Path.has_sep b = false -> Path.stripSeps (a +:+ b) = a +:+ b.
Proof.
  intros Hb Hs. induction a as [|x a IH]; simpl.
  - by apply stripSeps_no_sep.
  - rewrite IH. destruct (a +:+ b) eqn:E; [|done].
    destruct a; simpl in E; [done | discriminate].
Qed.

Lemma lastElem_app (a name : string) :
  Path.has_sep name = false -> Path.lastElem (a +:+ "/" +:+ name) = name.
Proof.
  intros Hs. induction a as [|x a IH]; simpl.
  - by rewrite Hs.
  - rewrite has_sep_app. simpl. by rewrite orb_true_r.
Qed.

Lemma validName_spec (name : string) :
  validName name = true -> name <> "" /\ Path.has_sep name = false.
Proof.
  unfold validName. rewrite !andb_true_iff, !negb_true_iff, String.eqb_neq. tauto.
Qed.

Lemma validName_plain (name : string) :
  validName name = true -> plainPath name = true.
Proof.
  unfold validName, plainPath.
  rewrite !andb_true_iff, !negb_true_iff, !String.eqb_neq.
  intros [[[H1 H2] H3] _]. split_and!; [done..|]. by intros ->.
Qed.

(** The last element of a path that ends in a separator and a file name is
    that name. *)
Lemma Base_app (a name : string) :
  validName name = true -> Path.Base (a +:+ "/" +:+ name) = name.
Proof.
  intros [Hne Hs]%validName_spec. unfold Path.Base.
  assert (Hstrip : Path.stripSeps (a +:+ "/" +:+ name) = a +:+ "/" +:+ name).
  { rewrite <- (append_assoc a "/" name). by apply stripSeps_app. }
  rewrite Hstrip.
  destruct (a +:+ "/" +:+ name) eqn:E.
  - destruct a; discriminate.
  - rewrite <- E. by apply lastElem_app.
Qed.

Lemma plainPath_app (r s : string) : plainPath r = true -> plainPath (r +:+ s) = true.
Proof.
  unfold plainPath. rewrite !andb_true_iff, !negb_true_iff, !String.eqb_neq.
  intros [[H1 H2] H3]. destruct r as [|a [|b r]]; [done| |].
  - destruct s; simpl.
    + done.
    + repeat split; discriminate.
  - repeat split; discriminate.
Qed.

Lemma Join_plain (r name : string) :
  plainPath r = true -> Path.Join r name = r +:+ "/" +:+ name.
Proof.
  unfold plainPath, Path.Join. rewrite !andb_true_iff, !negb_true_iff.
  by intros [[-> ->] ->].
Qed.

End path_facts.

(** ** Walks *)

Section walk_facts.

#[local] Arguments String.append !_ _ / : simpl nomatch.

Lemma walk_Dir (path : string) (es : list (string * node)) :
  walk path (Dir es)
  = (path, Dir es) :: flat_map (fun e => walk (Path.Join path e.1) e.2) es.
Proof.
  simpl. f_equal. induction es as [|[name c] es IH]; simpl; [done|].
  by rewrite IH.
Qed.

Lemma rwalk_Dir (rel : string) (es : list (string * node)) :
  rwalk rel (Dir es)
  = (rel, Dir es) :: flat_map (fun e => rwalk (rel +:+ "/" +:+ e.1) e.2) es.
Proof.
  simpl. f_equal. induction es as [|[name c] es IH]; simpl; [done|].
  by rewrite IH.
Qed.

Lemma wfNode_Dir (es : list (string * node)) :
  wfNode (Dir es) = true <->
  Forall (fun e => validName e.1 = true) es /\ NoDup (fst <$> es)
  /\ Forall (fun e => wfNode e.2 = true) es.
Proof.
  simpl. rewrite !andb_true_iff, bool_decide_eq_true.
  assert (H1 : forallb validName (fst <$> es) = true
               <-> Forall (fun e => validName e.1 = true) es).
  { induction es as [|[name c] es IH]; simpl.
    - split; [by constructor | done].
    - rewrite andb_true_iff, Forall_cons, IH. done. }
  assert (H2 : (fix wfEntries (es : list (string * node)) : bool :=
                  match es with
                  | [] => true
                  | (_, c) :: rest => wfNode c && wfEntries rest
                  end) es = true
               <-> Forall (fun e => wfNode e.2 = true) es).
  { clear H1. induction es as [|[name c] es IH]; simpl.
    - split; [by constructor | done].
    - rewrite andb_true_iff, Forall_cons, IH. done. }
  rewrite H1, H2. tauto.
Qed.

Lemma readable_Dir (es : list (string * node)) :
  readable (Dir es) = true <-> Forall (fun e => readable e.2 = true) es.
Proof.
  simpl. induction es as [|[name c] es IH]; simpl.
  - split; [by constructor | done].
  - rewrite andb_true_iff, Forall_cons, IH. done.
Qed.

Lemma walkM_app {S : Type} (fn : S -> string * node -> option S) (s : S)
    (l1 l2 : list (string * node)) :
  walkM fn s (l1 ++ l2)
  = match walkM fn s l1 with Some s' => walkM fn s' l2 | None => None end.
Proof.
  revert s. induction l1 as [|it l1 IH]; intros s; simpl; [done|].
  destruct (fn s it); [apply IH | done].
Qed.

Lemma walkM_ext {S : Type} (f g : S -> string * node -> option S) (s : S)
    (l : list (string * node)) :
  Forall (fun it => forall s, f s it = g s it) l -> walkM f s l = walkM g s l.
Proof.
  intros H. revert s. induction H as [|it l Hit _ IH]; intros s; simpl; [done|].
  rewrite Hit. destruct (g s it); [apply IH | done].
Qed.

Lemma walkM_fmap {S : Type} (f : S -> string * node -> option S)
    (h : string * node -> string * node) (s : S) (l : list (string * node)) :
  walkM f s (h <$> l) = walkM (fun s it => f s (h it)) s l.
Proof.
  revert s. induction l as [|it l IH]; intros s; simpl; [done|].
  destruct (f s (h it)); [apply IH | done].
Qed.

(** Below a plain root the walked paths are the root followed by the
    relative paths. *)
Lemma walk_plain (r : string) (n : node) :
  plainPath r = true ->
  forall rel, walk (r +:+ rel) n = (fun it => (r +:+ it.1, it.2)) <$> rwalk rel n.
Proof.
  intros Hr. induction n as [d|es IH] using node_tree_ind; intros rel; [reflexivity|].
  rewrite walk_Dir, rwalk_Dir, fmap_cons. simpl. f_equal.
  induction IH as [|[name c] es Hc _ IHes]; simpl; [done|].
  rewrite fmap_app, IHes. f_equal.
  rewrite Join_plain by (by apply plainPath_app).
  rewrite append_assoc. apply Hc.
Qed.

(** In a well-formed tree every relative path below the root of the walk
    ends in a separator and a valid name. *)
Lemma rwalk_entryPath (n : node) :
  wfNode n = true ->
  forall rel, Forall (fun it => entryPath it.1) (tail (rwalk rel n)).
Proof.
  induction n as [d|es IH] using node_tree_ind; intros Hwf rel; [by constructor|].
  rewrite rwalk_Dir. simpl.
  apply wfNode_Dir in Hwf as (Hnames & _ & Hwf).
  induction IH as [|[name c] es Hc _ IHes]; simpl; [by constructor|].
  apply Forall_cons in Hnames as [Hname Hnames].
  apply Forall_cons in Hwf as [Hwfc Hwf].
  apply Forall_app. split; [|by apply IHes].
  specialize (Hc Hwfc (rel +:+ "/" +:+ name)).
  destruct c as [d|es']; simpl in *.
  - constructor; [|done]. by exists rel, name.
  - constructor; [by exists rel, name | done].
Qed.

End walk_facts.

(** ** The snapshot built by treeContent *)

Section treeContent_facts.

#[local] Arguments String.append !_ _ / : simpl nomatch.

Lemma rwalk_cons (rel : string) (n : node) :
  rwalk rel n = (rel, n) :: tail (rwalk rel n).
Proof. by destruct n. Qed.

Lemma walk_cons (path : string) (n : node) :
  walk path n = (path, n) :: tail (walk path n).
Proof. by destruct n. Qed.

(** On the path of an entry the callback does not depend on the root. *)
Lemma treeContentFn_rel (r rel : string) (hdr : option string)
    (m : gmap string string) (x : node) :
  entryPath rel ->
  treeContentFn r hdr m (r +:+ rel, x) = treeContentFn "" hdr m (rel, x).
Proof.
  intros (a & name & -> & Hname). unfold treeContentFn.
  rewrite TrimPrefix_app.
  rewrite <- (append_assoc r a ("/" +:+ name)).
  rewrite !Base_app by done. done.
Qed.

(** The relative walk of a tree mounted at a plain root. *)
Lemma treeContent_tail (r : string) (n : node) (hdr : option string)
    (m : gmap string string) :
  plainPath r = true -> wfNode n = true ->
  walkM (treeContentFn r hdr) m (tail (walk r n))
  = walkM (treeContentFn "" hdr) m (tail (rwalk "" n)).
Proof.
  intros Hr Hwf.
  rewrite <- (append_nil_r r) at 2. rewrite walk_plain by done.
  rewrite (rwalk_cons "" n) at 1. rewrite fmap_cons. simpl tail.
  rewrite walkM_fmap. apply walkM_ext.
  eapply Forall_impl; [by apply rwalk_entryPath|].
  intros [rel x] Hrel s. simpl in *. by apply treeContentFn_rel.
Qed.

(** The snapshot does not depend on the root path, as long as it is a
    plain one that is not itself named as the marker. *)
Lemma treeContent_rel (r : string) (n : node) (hdr : option string) :
  plainPath r = true -> wfNode n = true -> Path.Base r <> fileForEmptyDir ->
  treeContent r n hdr = relContent n hdr.
Proof.
  intros Hr Hwf Hbase. unfold treeContent, relContent.
  rewrite (walk_cons r n), (rwalk_cons "" n). cbn [walkM tail].
  assert (Hroot : treeContentFn r hdr ∅ (r, n) = treeContentFn "" hdr ∅ ("", n)).
  { unfold treeContentFn. rewrite TrimPrefix_self.
    destruct (decide (Path.Base r = fileForEmptyDir)); [done|].
    destruct (decide (Path.Base "" = fileForEmptyDir)); [discriminate|]. done. }
  rewrite Hroot. destruct (treeContentFn "" hdr ∅ ("", n)); [|done].
  by apply treeContent_tail.
Qed.

(** Where each entry of a snapshot comes from. *)
Lemma walkM_treeContentFn_inv (dir : string) (hdr : option string)
    (l : list (string * node)) (m r : gmap string string) (k v : string) :
  walkM (treeContentFn dir hdr) m l = Some r ->
  r !! k = Some v ->
  m !! k = Some v
  \/ exists path info, (path, info) ∈ l /\ Path.Base path <> fileForEmptyDir
                        /\ k = Path.TrimPrefix path dir
                        /\ (hdr = Some magic -> isBinaryDB info = false).
Proof.
  revert m. induction l as [|[path info] l IH]; intros m Hw Hk; cbn [walkM] in Hw.
  - left. congruence.
  - destruct (treeContentFn dir hdr m (path, info)) as [m'|] eqn:Hfn; [|done].
    destruct (IH m' Hw Hk) as [Hm'|(q & x & Hin & Hb & Hq)].
    + unfold treeContentFn in Hfn.
      destruct (decide (Path.Base path = fileForEmptyDir)) as [|Hbase].
      { left. congruence. }
      assert (Hins : forall c, m' = <[Path.TrimPrefix path dir := c]> m ->
                (hdr = Some magic -> isBinaryDB info = false) ->
                m !! k = Some v
                \/ exists path0 info0, (path0, info0) ∈ (path, info) :: l
                     /\ Path.Base path0 <> fileForEmptyDir
                     /\ k = Path.TrimPrefix path0 dir
                     /\ (hdr = Some magic -> isBinaryDB info0 = false)).
      { intros c -> Hnb.
        destruct (decide (k = Path.TrimPrefix path dir)) as [->|Hne].
        - right. exists path, info. split; [by left | done].
        - left. by rewrite lookup_insert_ne in Hm'. }
      destruct info as [[d|]|es].
      * destruct hdr as [h|].
        -- destruct (Path.HasPrefix d h) eqn:Hd.
           ++ left. congruence.
           ++ apply (Hins d); [congruence|]. intros [= ->]. done.
        -- apply (Hins d); [congruence | done].
      * done.
      * apply (Hins ""); [congruence | done].
    + right. exists q, x. split; [by right | done].
Qed.

(** Below a plain root, a walked path is the root followed by a relative
    path, which is its key. *)
Lemma walk_plain_elem (p : string) (n : node) (path : string) (x : node) :
  plainPath p = true ->
  (path, x) ∈ walk p n
  <-> exists rel, path = p +:+ rel /\ (rel, x) ∈ rwalk "" n.
Proof.
  intros Hp.
  assert (Hw : walk p n = (fun it => (p +:+ it.1, it.2)) <$> rwalk "" n).
  { rewrite <- (append_nil_r p) at 1. by apply walk_plain. }
  rewrite Hw, list_elem_of_fmap. split.
  - intros ([rel y] & [= -> ->] & Hin). by exists rel.
  - intros (rel & -> & Hin). by exists (rel, x).
Qed.

(** Below a plain root the last element of a key of a well-formed tree is
    never the name of the marker. *)
Lemma snapshot_key_base (dir : string) (n : node) (hdr : option string)
    (r : gmap string string) (k v : string) :
  plainPath dir = true -> wfNode n = true ->
  treeContent dir n hdr = Some r -> r !! k = Some v ->
  Path.Base k <> fileForEmptyDir.
Proof.
  intros Hr Hwf Htc Hk. unfold treeContent in Htc.
  destruct (walkM_treeContentFn_inv _ _ _ _ _ _ _ Htc Hk)
    as [Hempty|(path & info & Hin & Hb & -> & _)]; [by rewrite lookup_empty in Hempty|].
  apply walk_plain_elem in Hin as (rel & -> & Hin); [|done].
  rewrite TrimPrefix_app.
  rewrite rwalk_cons in Hin. apply elem_of_cons in Hin as [Hroot|Hin].
  - injection Hroot as -> ->. discriminate.
  - pose proof (rwalk_entryPath n Hwf "") as Hall.
    rewrite Forall_forall in Hall. destruct (Hall _ Hin) as (a & name & Hrel & Hname).
    cbn [fst] in Hrel. subst rel.
    rewrite <- (append_assoc dir a ("/" +:+ name)) in Hb.
    rewrite Base_app in Hb by done. by rewrite Base_app.
Qed.

End treeContent_facts.

(** C6. A snapshot built by [treeContent] never has the marker file as a
    keyed entry, whatever the directory and the headers to ignore: every
    entry of the snapshot is keyed by a walked path whose last element is
    not [.empty]; and below a plain root the last element of a key of a
    well-formed tree is never [.empty]. *)
Theorem C6_snapshot_has_no_marker (dir : string) (n : node)
    (ignoreHeaders : option string) (r : gmap string string) (k v : string) :
  treeContent dir n ignoreHeaders = Some r ->
  r !! k = Some v ->
  (exists path info, (path, info) ∈ walk dir n
                     /\ Path.Base path <> fileForEmptyDir
                     /\ k = Path.TrimPrefix path dir)
  /\ (plainPath dir = true -> wfNode n = true -> Path.Base k <> fileForEmptyDir).
Proof.
  intros Htc Hk. split.
  - unfold treeContent in Htc.
    destruct (walkM_treeContentFn_inv _ _ _ _ _ _ _ Htc Hk)
      as [Hempty|(path & info & Hin & Hb & -> & _)];
      [by rewrite lookup_empty in Hempty|].
    by exists path, info.
  - intros Hr Hwf. by apply (snapshot_key_base dir n ignoreHeaders r k v).
Qed.

Lemma C6_snapshot_has_no_marker_witness :
  exists path info,
    (path, info) ∈ walk "/t" (Dir [(".empty", File (Some "")); ("a", File (Some "x"))])
    /\ Path.Base path <> fileForEmptyDir /\ "/a" = Path.TrimPrefix path "/t".
Proof.
  eapply (C6_snapshot_has_no_marker "/t"
            (Dir [(".empty", File (Some "")); ("a", File (Some "x"))])
            None (<["/a" := "x"]> (<["" := ""]> ∅)) "/a" "x").
  - vm_compute. reflexivity.
  - vm_compute. reflexivity.
Defined.

(** ** The root entry of a snapshot *)

Section root_entry.

#[local] Arguments String.append !_ _ / : simpl nomatch.

(** Every relative path below the root of a walk extends it by a
    separator. *)
Lemma rwalk_below (n : node) (rel : string) :
  Forall (fun it => exists s, it.1 = rel +:+ "/" +:+ s) (tail (rwalk rel n)).
Proof.
  revert rel. induction n as [d|es IH] using node_tree_ind; intros rel;
    [by constructor|].
  rewrite rwalk_Dir. simpl.
  induction IH as [|[name c] es Hc _ IHes]; simpl; [by constructor|].
  apply Forall_app. split; [|done].
  rewrite rwalk_cons. constructor.
  - by exists name.
  - eapply Forall_impl; [apply Hc|]. intros [q x] [s Hs]. simpl in *.
    exists (name +:+ "/" +:+ s). rewrite Hs.
    rewrite !append_assoc. done.
Qed.

(** The callback leaves alone every key other than the one of its path. *)
Lemma walkM_treeContentFn_other (dir : string) (hdr : option string) (k : string)
    (l : list (string * node)) (m r : gmap string string) :
  Forall (fun it => Path.TrimPrefix it.1 dir <> k) l ->
  walkM (treeContentFn dir hdr) m l = Some r ->
  r !! k = m !! k.
Proof.
  intros Hall. revert m.
  induction Hall as [|[path info] l Hne _ IH]; intros m Hw; cbn [walkM] in Hw.
  - congruence.
  - destruct (treeContentFn dir hdr m (path, info)) as [m'|] eqn:Hfn; [|done].
    rewrite (IH m' Hw). simpl in Hne. unfold treeContentFn in Hfn.
    destruct (decide (Path.Base path = fileForEmptyDir)); [congruence|].
    destruct info as [[d|]|es]; [|done|].
    + destruct hdr as [h|]; [destruct (Path.HasPrefix d h)|];
        simplify_eq; try done; by rewrite lookup_insert_ne.
    + simplify_eq. by rewrite lookup_insert_ne.
Qed.

Lemma plainPath_spec (p : string) :
  plainPath p = true <-> p <> "" /\ p <> "." /\ p <> "/".
Proof.
  unfold plainPath. rewrite !andb_true_iff, !negb_true_iff, !String.eqb_neq. tauto.
Qed.

(** The keys of everything below the root are not empty, for any cleaned
    root, when the names of its entries are valid. *)
Lemma walk_tail_keys_wf (dir : string) (es : list (string * node)) :
  wfNode (Dir es) = true ->
  Forall (fun it => Path.TrimPrefix it.1 dir <> "") (tail (walk dir (Dir es))).
Proof.
  intros (Hnames & _ & _)%wfNode_Dir. rewrite walk_Dir. cbn [tail].
  induction Hnames as [|[name c] l Hname _ IH]; cbn [flat_map]; [constructor|].
  apply Forall_app. split; [|done]. cbn [fst snd] in *.
  pose proof (validName_plain name Hname) as Hn.
  assert (Hkey : plainPath (Path.Join dir name) = true
                 /\ forall rel, Path.TrimPrefix (Path.Join dir name +:+ rel) dir <> "").
  { apply plainPath_spec in Hn as (Hn1 & Hn2 & Hn3). unfold Path.Join.
    destruct (String.eqb_spec dir "") as [->|Hd1].
    { split; [by apply plainPath_spec|]. intros rel. unfold Path.TrimPrefix. simpl.
      by destruct name. }
    destruct (String.eqb_spec dir ".") as [->|Hd2].
    { split; [by apply plainPath_spec|]. intros rel. unfold Path.TrimPrefix.
      destruct name as [|a name']; [done|].
      change (String a name' +:+ rel) with (String a (name' +:+ rel)).
      cbn [Path.stripPrefix].
      destruct (Ascii.eqb_spec "." a) as [<-|_]; cbn [default]; [|done].
      destruct name'; [done | discriminate]. }
    destruct (String.eqb_spec dir "/") as [->|Hd3].
    { split; [by destruct name|]. intros rel. rewrite append_assoc.
      rewrite TrimPrefix_app. by destruct name. }
    split.
    - apply plainPath_app. by apply plainPath_spec.
    - intros rel. rewrite append_assoc, TrimPrefix_app. discriminate. }
  destruct Hkey as [Hplain Hkey].
  assert (Hw : walk (Path.Join dir name) c
               = (fun it => (Path.Join dir name +:+ it.1, it.2)) <$> rwalk "" c).
  { rewrite <- (append_nil_r (Path.Join dir name)) at 1. by apply walk_plain. }
  rewrite Hw. apply Forall_fmap, Forall_forall. intros [rel x] _. apply Hkey.
Qed.

(** The search for the dconf directory never fails. *)
Lemma walkM_dconfDirFn_total (l : list (string * node)) (d : string) :
  exists d', walkM dconfDirFn d l = Some d'.
Proof.
  revert d. induction l as [|[q x] l IH]; intros d; cbn [walkM]; [by eexists|].
  unfold dconfDirFn at 1.
  destruct (negb (IsDir x)); [apply IH|].
  destruct (decide (Path.Base q = "db")); apply IH.
Qed.

Lemma findDconfDir_total (p : string) (n : node) :
  exists d, findDconfDir p n = Some d.
Proof. apply walkM_dconfDirFn_total. Qed.

End root_entry.

(** C10, as stated, fails: the snapshot of an existing, empty directory
    that is itself named [.empty] has no entry for the root; it is the
    empty map. *)
Lemma C10_root_named_as_marker :
  exists r : gmap string string,
    treeContent "/tmp/.empty" (Dir []) (Some magic) = Some r
    /\ r !! "" = None /\ r = ∅.
Proof. exists ∅. vm_compute. done. Qed.

(** C10, amended. For every existing directory whose path does not end in
    the element [.empty], the snapshot maps the key [""] to the empty
    string, so it is a non-empty map; and the snapshot of any existing
    directory, an empty map included, is not the nil snapshot of a missing
    path: compared with a missing golden path it is reported as
    different. *)
Theorem C10_root_entry (fs : fsys) (p goldPath : string)
    (es : list (string * node)) (r : gmap string string) :
  fs !! p = Some (Dir es) ->
  treeContent p (Dir es) (Some magic) = Some r ->
  (wfNode (Dir es) = true -> Path.Base p <> fileForEmptyDir ->
   r !! "" = Some "" /\ r <> ∅)
  /\ (fs !! goldPath = None ->
      exists failures,
        compareTrees p goldPath fs
        = Returned fs (ContentDiffers None (Some r) :: failures)).
Proof.
  intros Hp Htc. split.
  - intros Hplain Hbase.
    assert (Hroot : r !! "" = Some "").
    { unfold treeContent in Htc. rewrite walk_cons in Htc. cbn [walkM] in Htc.
      destruct (treeContentFn p (Some magic) ∅ (p, Dir es)) as [m|] eqn:Hfn; [|done].
      unfold treeContentFn in Hfn.
      destruct (decide (Path.Base p = fileForEmptyDir)); [done|].
      rewrite TrimPrefix_self in Hfn. injection Hfn as <-.
      rewrite (walkM_treeContentFn_other _ _ "" _ _ _ (walk_tail_keys_wf p es Hplain) Htc).
      by rewrite lookup_insert_eq. }
    split; [done|]. intros ->. by rewrite lookup_empty in Hroot.
  - intros Hgold. unfold compareTrees, snapshotAt. rewrite Hp, Htc, Hgold.
    destruct (decide (None = Some r)); [done|].
    unfold checkDconfDBs.
    destruct (findDconfDir_total p (Dir es)) as [d ->]. by eexists.
Qed.

Lemma C10_root_entry_witness :
  (<["" := ""]> ∅ : gmap string string) !! "" = Some ""
  /\ (<["" := ""]> ∅ : gmap string string) <> ∅.
Proof.
  apply (C10_root_entry {[ "/t" := Dir [] ]} "/t" "/g" [] (<["" := ""]> ∅)).
  - vm_compute. reflexivity.
  - vm_compute. reflexivity.
  - vm_compute. reflexivity.
  - vm_compute. discriminate.
Defined.

(** ** The check of the binary dconf databases *)

Section dconf_check.

#[local] Arguments String.append !_ _ / : simpl nomatch.

Lemma stripSuffix_Some (suf s x : string) :
  Path.stripSuffix suf s = Some x -> s = x +:+ suf.
Proof.
  revert x. induction s as [|c s IH]; intros x; cbn [Path.stripSuffix].
  - destruct (String.eqb_spec "" suf) as [<-|]; [|done]. by intros [= <-].
  - destruct (String.eqb_spec (String c s) suf) as [<-|_]; [by intros [= <-]|].
    destruct (Path.stripSuffix suf s) as [y|]; [|done].
    intros [= <-]. simpl. f_equal. by apply IH.
Qed.

(** The last character of a string. *)
Lemma last_char_app (x y : string) (a b : ascii) :
  x +:+ String a "" = y +:+ String b "" -> a = b.
Proof.
  revert y. induction x as [|c x IH]; intros [|d y]; simpl; intros [= ].
  - done.
  - by destruct y.
  - by destruct x.
  - by eapply IH.
Qed.

(** A path that ends in [.d] does not end in [.db]: trimming [.db] from a
    match of the glob gives the match back. *)
Lemma TrimSuffix_db (dir name : string) :
  Path.matchStarD name = true ->
  Path.TrimSuffix (Path.Join dir name) ".db" = Path.Join dir name.
Proof.
  unfold Path.matchStarD. rewrite andb_true_iff, bool_decide_eq_true.
  intros [_ [x Hx]]. apply stripSuffix_Some in Hx.
  unfold Path.TrimSuffix.
  destruct (Path.stripSuffix ".db" (Path.Join dir name)) as [y|] eqn:Hy; [|done].
  exfalso. apply stripSuffix_Some in Hy.
  assert (Hends : exists a, Path.Join dir name = a +:+ name).
  { unfold Path.Join.
    destruct (String.eqb dir ""); [by exists ""|].
    destruct (String.eqb dir "."); [by exists ""|].
    destruct (String.eqb dir "/"); [by exists "/"|].
    exists (dir +:+ "/"). by rewrite append_assoc. }
  destruct Hends as [a Ha]. rewrite Ha, Hx in Hy.
  change ".d" with ("." +:+ "d") in Hy. change ".db" with (".d" +:+ "b") in Hy.
  rewrite <- !append_assoc in Hy.
  by apply last_char_app in Hy.
Qed.

(** The entries of a walked directory are walked too. *)
Lemma walk_entry (p : string) (n : node) (dir name : string)
    (es : list (string * node)) (c : node) :
  (dir, Dir es) ∈ walk p n -> (name, c) ∈ es -> (Path.Join dir name, c) ∈ walk p n.
Proof.
  revert p. induction n as [d|es0 IH] using node_tree_ind; intros p Hdir Hc.
  - apply list_elem_of_singleton in Hdir. done.
  - rewrite walk_Dir in *. apply elem_of_cons in Hdir as [Heq|Hin]; apply elem_of_cons; right.
    + injection Heq as -> ->. apply list_elem_of_In, in_flat_map.
      exists (name, c). split; [by apply list_elem_of_In|].
      simpl. rewrite walk_cons. by left.
    + apply list_elem_of_In, in_flat_map in Hin as [[name0 c0] [Hin0 Hin]].
      apply list_elem_of_In, in_flat_map. exists (name0, c0). split; [done|].
      apply list_elem_of_In. rewrite Forall_forall in IH.
      apply list_elem_of_In in Hin0. apply (IH _ Hin0).
      * by apply list_elem_of_In.
      * done.
Qed.

Lemma statIn_Some (p : string) (n : node) (path : string) (x : node) :
  statIn p n path = Some x -> (path, x) ∈ walk p n.
Proof.
  unfold statIn. destruct (List.find _ _) as [[q y]|] eqn:Hfind; [|done].
  intros [= <-]. apply find_some in Hfind as [Hin Heq].
  apply String.eqb_eq in Heq. simpl in Heq. subst q. by apply list_elem_of_In.
Qed.

Lemma statIn_walked (p : string) (n : node) (path : string) (x : node) :
  (path, x) ∈ walk p n -> is_Some (statIn p n path).
Proof.
  intros Hin. unfold statIn.
  destruct (List.find _ _) as [it|] eqn:Hfind; [by eexists|].
  apply list_elem_of_In in Hin.
  pose proof (find_none _ _ Hfind _ Hin) as Hne. simpl in Hne.
  by rewrite String.eqb_refl in Hne.
Qed.

(** Every match of the glob passes the check: the path that is looked up
    is the match itself. *)
Lemma checkDB_glob (p : string) (n : node) (dir db : string) :
  db ∈ GlobStarD p n dir -> checkDB p n db = [].
Proof.
  unfold GlobStarD. destruct (statIn p n dir) as [[d|es]|] eqn:Hdir;
    [by intros ?%elem_of_nil | | by intros ?%elem_of_nil].
  intros (name & -> & Hname)%list_elem_of_fmap.
  apply list_elem_of_In, filter_In in Hname as [Hname Hmatch].
  apply list_elem_of_In, list_elem_of_fmap in Hname as ([name' c] & -> & Hin).
  simpl in *. unfold checkDB. rewrite TrimSuffix_db by done.
  apply statIn_Some in Hdir.
  destruct (statIn_walked p n _ c (walk_entry _ _ _ _ _ _ Hdir Hin)) as [x ->].
  done.
Qed.

(** So the structural check records no failure, whatever the tree. *)
Lemma checkDconfDBs_silent (p : string) (n : node) (fs : fsys)
    (failures : list failure) :
  checkDconfDBs p n fs failures = Returned fs failures.
Proof.
  unfold checkDconfDBs. destruct (findDconfDir_total p n) as [d ->].
  f_equal. rewrite <- (app_nil_r failures) at 2. f_equal.
  assert (Hall : forall dbs : list string,
            (forall db, db ∈ dbs -> checkDB p n db = []) ->
            concat (checkDB p n <$> dbs) = []).
  { induction dbs as [|db dbs IH]; intros H; simpl; [done|].
    rewrite (H db) by (by left). apply IH. intros db' Hin. apply H. by right. }
  apply Hall. intros db. apply checkDB_glob.
Qed.

End dconf_check.

(** C1. The check of line 105 trims [.db], not [.d], from each match of
    the glob, so the path it looks up is the match itself: with a directory
    [db/sub.d] and no file [db/sub] in the actual tree, no failure is
    recorded, where the specification has a soft failure for [db/sub]. *)
Theorem C1_missing_binary_not_reported :
  let actual := Dir [("db", Dir [("sub.d", Dir [])])] in
  let golden := Dir [("db", Dir [("sub.d", Dir [(".empty", File (Some ""))])])] in
  let fs : fsys := {[ "/t" := actual; "/g" := golden ]} in
  GlobStarD "/t" actual "/t/db" = ["/t/db/sub.d"]
  /\ statIn "/t" actual (Path.TrimSuffix "/t/db/sub.d" ".d") = None
  /\ checkDB "/t" actual "/t/db/sub.d" = []
  /\ forall lstat, CompareTreesWithFiltering lstat "/t" "/g" false fs = Returned fs [].
Proof. vm_compute. done. Qed.

(** C4, as stated, fails: with the directories [a/db] and [db] the search
    keeps the parent of [db], the last one walked, not the parent of the
    deeper [a/db]. *)
Lemma C4_last_is_not_deepest :
  let actual := Dir [("a", Dir [("db", Dir [])]); ("db", Dir [])] in
  findDconfDir "/t" actual = Some "/t"
  /\ specDconfDir "/t" actual = "/t/a"
  /\ findDconfDir "/t" actual <> Some (specDconfDir "/t" actual).
Proof. vm_compute. done. Qed.

(** C4, amended. The search never fails; it selects the last directory
    named [db] in the order of the walk, whose parent becomes the dconf
    directory, and falls back to the actual path when no directory is named
    [db]. *)
Theorem C4_last_db_in_walk_order (p : string) (n : node) :
  findDconfDir p n
  = Some (match last (dbDirs p n) with
          | Some it => Path.Dir it.1
          | None => p
          end).
Proof.
  unfold findDconfDir, dbDirs. generalize (walk p n) as l. generalize p as d.
  intros d l. revert d.
  induction l as [|[q x] l IH]; intros d; cbn [walkM]; [done|].
  cbn [List.filter].
  assert (Hfn : dconfDirFn d (q, x) = Some (if isDbDir (q, x) then Path.Dir q else d)).
  { unfold dconfDirFn, isDbDir. cbn [fst snd].
    destruct (IsDir x); cbn [negb andb]; [|done].
    destruct (decide (Path.Base q = "db"));
      [by rewrite bool_decide_eq_true_2 | by rewrite bool_decide_eq_false_2]. }
  rewrite Hfn, IH. destruct (isDbDir (q, x)); [|done].
  destruct (List.filter isDbDir l) as [|it l'] eqn:Hf; [done|].
  rewrite (last_cons (q, x)). by destruct (last (it :: l')).
Qed.

(** ** The copy and its filter *)

Section copy_facts.

Lemma copyKept_Dir (src : string) (es : list (string * node)) :
  copyKept src (Dir es)
  = Dir (copyEntry src <$> List.filter (keepEntry (ignoreDconfDB src es)) es).
Proof.
  cbn [copyKept]. f_equal. generalize (ignoreDconfDB src es) as ign. intros ign.
  induction es as [|[name c] es IH]; cbn [List.filter]; [done|].
  unfold keepEntry at 1. cbn [fst].
  destruct (bool_decide (name ∈ ign)); cbn [negb]; [done|].
  rewrite fmap_cons. by rewrite IH.
Qed.

Lemma addMarkerNode_Dir (es : list (string * node)) :
  addMarkerNode (Dir es)
  = Dir (match es with [] => [emptyMarker] | _ => markEntry <$> es end).
Proof.
  destruct es as [|[name c] es]; [done|]. cbn [addMarkerNode]. f_equal.
  rewrite fmap_cons. f_equal.
  induction es as [|[name' c'] es IH]; [done|].
  rewrite fmap_cons. by rewrite <- IH.
Qed.

(** The names the filter returns: those of the readable files that start
    with the magic prefix. *)
Lemma ignoreDconfDB_spec (src name : string) (es : list (string * node)) :
  name ∈ ignoreDconfDB src es
  <-> exists d, (name, File (Some d)) ∈ es /\ Path.HasPrefix d magic = true.
Proof.
  induction es as [|[name0 c] es IH]; cbn [ignoreDconfDB].
  - split; [by intros ?%elem_of_nil | by intros (d & ?%elem_of_nil & _)].
  - assert (Hskip : isBinaryDB c = false ->
              (name ∈ ignoreDconfDB src es
               <-> exists d, (name, File (Some d)) ∈ (name0, c) :: es
                             /\ Path.HasPrefix d magic = true)).
    { intros Hc. rewrite IH. split.
      - intros (d & Hin & Hd). exists d. split; [by right | done].
      - intros (d & Hin & Hd). exists d. split; [|done].
        apply elem_of_cons in Hin as [Heq|Hin]; [|done].
        injection Heq as <- <-. simpl in Hc. congruence. }
    destruct c as [[d0|]|es0]; [|by apply Hskip..].
    destruct (Path.HasPrefix d0 magic) eqn:Hd0; [|by apply Hskip].
    rewrite elem_of_cons, IH. split.
    + intros [->|(d & Hin & Hd)].
      * exists d0. split; [by left | done].
      * exists d. split; [by right | done].
    + intros (d & Hin & Hd). apply elem_of_cons in Hin as [Heq|Hin].
      * left. congruence.
      * right. by exists d.
Qed.

Lemma NoDup_fst_unique (es : list (string * node)) (name : string) (c1 c2 : node) :
  NoDup (fst <$> es) -> (name, c1) ∈ es -> (name, c2) ∈ es -> c1 = c2.
Proof.
  induction es as [|[name0 c0] es IH]; [by intros _ ?%elem_of_nil|].
  rewrite fmap_cons. intros [Hnotin Hnd]%NoDup_cons H1 H2.
  apply elem_of_cons in H1 as [H1|H1]; apply elem_of_cons in H2 as [H2|H2].
  - congruence.
  - injection H1 as -> ->. destruct Hnotin.
    apply list_elem_of_fmap. by exists (name0, c2).
  - injection H2 as -> ->. destruct Hnotin.
    apply list_elem_of_fmap. by exists (name0, c1).
  - by apply IH.
Qed.

(** With distinct names, an entry is skipped exactly when it is itself a
    binary database. *)
Lemma keepEntry_isBinaryDB (src : string) (es : list (string * node))
    (e : string * node) :
  NoDup (fst <$> es) -> e ∈ es ->
  keepEntry (ignoreDconfDB src es) e = negb (isBinaryDB e.2).
Proof.
  intros Hnd He. unfold keepEntry. f_equal.
  destruct (isBinaryDB e.2) eqn:Hb.
  - apply bool_decide_eq_true_2, ignoreDconfDB_spec.
    destruct e as [name [[d|]|es0]]; simpl in Hb; try done. by exists d.
  - apply bool_decide_eq_false_2. intros (d & Hin & Hd)%ignoreDconfDB_spec.
    assert (e.2 = File (Some d)) as Heq.
    { apply (NoDup_fst_unique es e.1); [done | by destruct e | done]. }
    rewrite Heq in Hb. simpl in Hb. congruence.
Qed.

Lemma copyNode_Dir (lstat : kinds) (src dst : string) (es : list (string * node)) :
  copyNode lstat src dst (Dir es)
  = let '(copied, ok) := copyEntriesOf lstat src dst (ignoreDconfDB src es) es in
    (Dir copied, ok).
Proof.
  cbn [copyNode]. generalize (ignoreDconfDB src es) as ign. intros ign.
  assert (Hloop : (fix copyEntries (es : list (string * node))
                       : list (string * node) * bool :=
             match es with
             | [] => ([], true)
             | (name, c) :: rest =>
                 if bool_decide (name ∈ ign) then copyEntries rest
                 else
                   match c with
                   | Dir _ =>
                       let '(c', ok) :=
                         copyNode lstat (Path.Join src name) (Path.Join dst name) c in
                       if ok then
                         let '(r, okr) := copyEntries rest in ((name, c') :: r, okr)
                       else ([(name, c')], false)
                   | File d =>
                       match copyFile (lstat (Path.Join src name))
                               (Path.Join dst name) d with
                       | Some d' =>
                           let '(r, okr) := copyEntries rest in
                           ((name, File d') :: r, okr)
                       | None => ([], false)
                       end
                   end
             end) es = copyEntriesOf lstat src dst ign es).
  { induction es as [|[name c] es IH]; [done|]. cbn [copyEntriesOf].
    by rewrite IH. }
  by rewrite Hloop.
Qed.

(** When the copy of a directory succeeds, every non-directory entry
    that is not ignored was copied, and reads what [copyFile] gives. *)
Lemma copyEntriesOf_file (lstat : kinds) (src dst : string) (ign : list string)
    (es copied : list (string * node)) (name : string) (d : option string) :
  (name, File d) ∈ es -> name ∉ ign ->
  copyEntriesOf lstat src dst ign es = (copied, true) ->
  exists d', copyFile (lstat (Path.Join src name)) (Path.Join dst name) d = Some d'
             /\ (name, File d') ∈ copied.
Proof.
  intros Hin Hign. revert copied.
  induction es as [|[name0 c] es IH]; intros copied; [by apply elem_of_nil in Hin|].
  cbn [copyEntriesOf].
  assert (Hrest : forall e copied',
            (name, File d) ∈ es ->
            (let '(r, okr) := copyEntriesOf lstat src dst ign es in (e :: r, okr))
            = (copied', true) ->
            exists d', copyFile (lstat (Path.Join src name)) (Path.Join dst name) d
                       = Some d'
                       /\ (name, File d') ∈ copied').
  { intros e copied' Hes.
    destruct (copyEntriesOf lstat src dst ign es) as [r okr] eqn:Hr.
    intros [= <- ->]. destruct (IH Hes r eq_refl) as (d' & Hd' & Hin').
    exists d'. split; [done | by right]. }
  apply elem_of_cons in Hin as [Heq|Hin].
  - injection Heq as <- <-. rewrite bool_decide_eq_false_2 by done.
    destruct (copyFile (lstat (Path.Join src name)) (Path.Join dst name) d)
      as [d'|]; [|done].
    destruct (copyEntriesOf lstat src dst ign es) as [r okr].
    intros [= <- ->]. exists d'. split; [done | by left].
  - destruct (bool_decide (name0 ∈ ign)); [by apply IH|].
    destruct c as [d0|es0].
    + destruct (copyFile (lstat (Path.Join src name0)) (Path.Join dst name0) d0)
        as [d0'|]; [by apply Hrest | done].
    + destruct (copyNode lstat (Path.Join src name0) (Path.Join dst name0) (Dir es0))
        as [c' [|]]; [by apply Hrest | done].
Qed.

Lemma copiedAsRead_Dir (lstat : kinds) (src dst : string)
    (es : list (string * node)) :
  copiedAsRead lstat src dst (Dir es) = forallb (entryAsRead lstat src dst) es.
Proof.
  cbn [copiedAsRead].
  induction es as [|[name c] es IH]; [done|]. cbn [forallb]. rewrite <- IH.
  by destruct c.
Qed.

(** A tree whose kept entries are all copied, and read in the copy as in
    the source, is copied without failure, and the copy is the source
    without what the filter names. *)
Lemma copyNode_asRead (lstat : kinds) (n : node) (src dst : string) :
  copiedAsRead lstat src dst n = true ->
  copyNode lstat src dst n = (copyKept src n, true).
Proof.
  revert src dst.
  induction n as [d|es IH] using node_tree_ind; intros src dst Hn; [done|].
  rewrite copyNode_Dir, copyKept_Dir. rewrite copiedAsRead_Dir in Hn.
  assert (Hign : Forall (fun e => isBinaryDB e.2 = true
                                  -> e.1 ∈ ignoreDconfDB src es) es).
  { apply Forall_forall. intros [name c] He Hb. apply ignoreDconfDB_spec.
    destruct c as [[d|]|es0]; simpl in Hb; try done. by exists d. }
  generalize dependent (ignoreDconfDB src es). intros ign Hign.
  assert (Hloop : copyEntriesOf lstat src dst ign es
                  = (copyEntry src <$> List.filter (keepEntry ign) es, true));
    [|by rewrite Hloop].
  induction IH as [|[name c] l Hc _ IHl]; [done|].
  apply Forall_cons in Hign as [Hb Hign]. cbn [forallb] in Hn.
  apply andb_true_iff in Hn as [He Hn]. specialize (IHl Hn Hign).
  cbn [copyEntriesOf List.filter]. unfold keepEntry at 1. cbn [fst snd] in *.
  destruct (bool_decide (name ∈ ign)) eqn:Hname; cbn [negb]; [done|].
  rewrite fmap_cons. unfold copyEntry at 1. cbn [fst snd].
  apply bool_decide_eq_false in Hname. unfold entryAsRead in He. cbn [fst snd] in He.
  destruct c as [d|es0].
  - destruct (isBinaryDB (File d)) eqn:Hbd; [by destruct Hname; apply Hb|].
    cbn [orb] in He. apply bool_decide_eq_true in He. rewrite He, IHl. done.
  - rewrite (Hc _ _ He), IHl. done.
Qed.

(** [CopyTree] on such a tree, to a free destination. *)
Lemma CopyTree_asRead (lstat : kinds) (fs : fsys) (src dst : string)
    (es : list (string * node)) :
  fs !! src = Some (Dir es) -> fs !! dst = None ->
  copiedAsRead lstat src dst (Dir es) = true ->
  CopyTree lstat src dst fs = (<[dst := copyKept src (Dir es)]> fs, true).
Proof.
  intros Hsrc Hdst Hes. unfold CopyTree. rewrite Hsrc, Hdst.
  by rewrite copyNode_asRead.
Qed.

End copy_facts.

(** C8, as stated, fails: a regular file that cannot be read is not in the
    ignore list, but [shutil.Copy] cannot open it either, so the copy
    stops there and the update with it. *)
Lemma C8_unreadable_file_stops_copy :
  let actual := Dir [("a", File (Some "x")); ("secret", File None);
                     ("z", File (Some "y"))] in
  let fs : fsys := {[ "/t" := actual ]} in
  ("secret" ∉ ignoreDconfDB "/t" (entriesOf actual))
  /\ CopyTree allRegular "/t" "/g" fs
     = (<["/g" := Dir [("a", File (Some "x"))]]> fs, false)
  /\ CompareTreesWithFiltering allRegular "/t" "/g" true fs
     = Stopped (<["/g" := Dir [("a", File (Some "x"))]]> fs) [] CannotCopy.
Proof. split; [compute_done|]. vm_compute. done. Qed.

(** C8, amended. A read failure inside the ignore filter counts as "not a
    binary database": the name of the entry is not in the list the filter
    returns, and the filter gives [CopyTree] no error.  The entry then
    goes to the copy: a symbolic link is re-created, so a copy that
    succeeds holds it; a regular file that cannot be read makes the copy
    fail. *)
Theorem C8_read_failure_is_not_ignored (lstat : kinds) (src dst name : string)
    (es : list (string * node)) :
  NoDup (fst <$> es) ->
  (name, File None) ∈ es ->
  (name ∉ ignoreDconfDB src es)
  /\ (forall reread,
        lstat (Path.Join src name) = Symlink reread ->
        (copyNode lstat src dst (Dir es)).2 = true ->
        (name, File (reread (Path.Join dst name)))
        ∈ entriesOf (copyNode lstat src dst (Dir es)).1)
  /\ (lstat (Path.Join src name) = Regular ->
      (copyNode lstat src dst (Dir es)).2 = false).
Proof.
  intros Hnd Hin.
  assert (Hnot : name ∉ ignoreDconfDB src es).
  { intros (d & Hd & _)%ignoreDconfDB_spec.
    by pose proof (NoDup_fst_unique es name _ _ Hnd Hin Hd). }
  split; [done|]. rewrite copyNode_Dir.
  destruct (copyEntriesOf lstat src dst (ignoreDconfDB src es) es)
    as [copied ok] eqn:Hcopy.
  cbn [fst snd entriesOf]. split.
  - intros reread Hkind ->.
    destruct (copyEntriesOf_file _ _ _ _ _ _ _ _ Hin Hnot Hcopy) as (d' & Hd' & Hin').
    rewrite Hkind in Hd'. cbn [copyFile] in Hd'. by injection Hd' as <-.
  - intros Hkind. destruct ok; [|done].
    destruct (copyEntriesOf_file _ _ _ _ _ _ _ _ Hin Hnot Hcopy) as (d' & Hd' & _).
    by rewrite Hkind in Hd'.
Qed.

Lemma C8_read_failure_is_not_ignored_witness :
  let links : kinds := fun _ => Symlink (fun _ => None) in
  let es := [("db", File (Some "GVariant0")); ("link", File None)] in
  ("link" ∉ ignoreDconfDB "/t" es)
  /\ ("link", File None) ∈ entriesOf (copyNode links "/t" "/g" (Dir es)).1.
Proof.
  intros links es.
  destruct (C8_read_failure_is_not_ignored links "/t" "/g" "link" es)
    as (Hnot & Hlink & _).
  - compute_done.
  - right. left.
  - split; [exact Hnot|]. apply (Hlink (fun _ => None)); reflexivity.
Defined.

(** ** Update then compare: the two snapshots *)

Section roundtrip.

#[local] Arguments String.append !_ _ / : simpl nomatch.

Lemma roundtrip_file (rel : string) (d : option string) (m : gmap string string) :
  isBinaryDB (File d) = false ->
  treeContentFn "" None m (rel, File d)
  = treeContentFn "" (Some magic) m (rel, File d).
Proof.
  unfold treeContentFn. intros Hb.
  destruct (decide (Path.Base rel = fileForEmptyDir)); [done|].
  destruct d as [s|]; [|done]. simpl in Hb. by rewrite Hb.
Qed.

(** A binary database leaves no trace in the snapshot of the actual
    tree. *)
Lemma binaryDB_skipped (rel : string) (c : node) (m : gmap string string) :
  isBinaryDB c = true ->
  walkM (treeContentFn "" (Some magic)) m (rwalk rel c) = Some m.
Proof.
  destruct c as [[d|]|es]; simpl; try done. intros Hb.
  unfold treeContentFn.
  destruct (decide (Path.Base rel = fileForEmptyDir)); [done|]. by rewrite Hb.
Qed.

(** Nor does a marker, in any snapshot. *)
Lemma marker_skipped (rel : string) (hdr : option string) (d : option string)
    (m : gmap string string) :
  walkM (treeContentFn "" hdr) m (rwalk (rel +:+ "/" +:+ fileForEmptyDir) (File d))
  = Some m.
Proof.
  cbn [rwalk walkM]. unfold treeContentFn. rewrite Base_app by done.
  by destruct (decide (fileForEmptyDir = fileForEmptyDir)).
Qed.

(** The walk of the golden tree records what the filtered walk of the
    actual tree records. *)
Lemma roundtrip_walk (c : node) :
  wfNode c = true -> isBinaryDB c = false ->
  forall (src rel : string) (m : gmap string string),
    walkM (treeContentFn "" None) m (rwalk rel (goldenOf src c))
    = walkM (treeContentFn "" (Some magic)) m (rwalk rel c).
Proof.
  induction c as [d|es IH] using node_tree_ind; intros Hwf Hb src rel m.
  - unfold goldenOf. cbn [copyKept addMarkerNode rwalk walkM].
    by rewrite roundtrip_file.
  - apply wfNode_Dir in Hwf as (_ & Hnd & Hwf).
    unfold goldenOf. rewrite copyKept_Dir, addMarkerNode_Dir, !rwalk_Dir.
    cbn [walkM].
    set (ces := copyEntry src <$> List.filter (keepEntry (ignoreDconfDB src es)) es).
    set (ges := match ces with [] => [emptyMarker] | _ :: _ => markEntry <$> ces end).
    assert (Hroot : treeContentFn "" None m (rel, Dir ges)
                    = treeContentFn "" (Some magic) m (rel, Dir es)) by done.
    rewrite Hroot. destruct (treeContentFn "" (Some magic) m (rel, Dir es)) as [m'|]; [|done].
    assert (Hkeep : Forall (fun e => keepEntry (ignoreDconfDB src es) e
                                     = negb (isBinaryDB e.2)) es).
    { apply Forall_forall. intros e He. by apply keepEntry_isBinaryDB. }
    assert (Hent : forall m0,
      walkM (treeContentFn "" None) m0
        (flat_map (fun e => rwalk (rel +:+ "/" +:+ e.1) e.2) (markEntry <$> ces))
      = walkM (treeContentFn "" (Some magic)) m0
          (flat_map (fun e => rwalk (rel +:+ "/" +:+ e.1) e.2) es)).
    { subst ces. clear Hroot ges Hnd.
      generalize dependent (ignoreDconfDB src es). intros ign Hkeep.
      induction IH as [|[name c] l Hc _ IHl]; intros m0; [done|].
      apply Forall_cons in Hwf as [Hwfc Hwf].
      apply Forall_cons in Hkeep as [Hk Hkeep].
      cbn [List.filter flat_map]. rewrite Hk. cbn [snd] in *.
      rewrite (walkM_app _ _ (rwalk _ c)).
      destruct (isBinaryDB c) eqn:Hbc; cbn [negb].
      - rewrite binaryDB_skipped by done. by apply IHl.
      - rewrite !fmap_cons. cbn [flat_map markEntry copyEntry fst snd].
        rewrite walkM_app.
        change (addMarkerNode (copyKept (Path.Join src name) c))
          with (goldenOf (Path.Join src name) c).
        rewrite (Hc Hwfc eq_refl).
        destruct (walkM _ m0 (rwalk _ c)); [|done]. by apply IHl. }
    rewrite <- Hent. subst ges. destruct ces as [|ce ces']; [|done].
    cbn [flat_map]. rewrite app_nil_r. unfold emptyMarker. cbn [fst snd].
    by rewrite marker_skipped.
Qed.

(** Update then compare, on relative paths: the snapshot of the golden
    tree, taken without filter, is the filtered snapshot of the actual
    tree. *)
Lemma roundtrip_relContent (src : string) (es : list (string * node)) :
  wfNode (Dir es) = true ->
  relContent (goldenOf src (Dir es)) None = relContent (Dir es) (Some magic).
Proof. intros Hwf. by apply roundtrip_walk. Qed.

End roundtrip.

(** ** The golden tree is well formed, and reading succeeds *)

Section golden_facts.

Lemma wfNode_map_filter (es : list (string * node))
    (keep : string * node -> bool) (f : string * node -> string * node) :
  (forall e, (f e).1 = e.1) ->
  wfNode (Dir es) = true ->
  Forall (fun e => wfNode (f e).2 = true) es ->
  wfNode (Dir (f <$> List.filter keep es)) = true.
Proof.
  intros Hf (Hnames & Hnd & _)%wfNode_Dir Hwf. apply wfNode_Dir.
  induction es as [|e es IH]; cbn [List.filter].
  - split_and!; [constructor | by apply NoDup_nil | constructor].
  - apply Forall_cons in Hnames as [Hname Hnames].
    apply Forall_cons in Hwf as [Hwfe Hwf].
    rewrite fmap_cons in Hnd. apply NoDup_cons in Hnd as [Hnotin Hnd].
    destruct (IH Hnames Hnd Hwf) as (IH1 & IH2 & IH3).
    destruct (keep e); [|done].
    rewrite !fmap_cons. repeat split.
    + constructor; [by rewrite Hf | done].
    + apply NoDup_cons. split; [|done].
      rewrite Hf. intros (x & Hx1 & (x0 & -> & Hx0)%list_elem_of_fmap)%list_elem_of_fmap.
      apply Hnotin. apply list_elem_of_fmap. exists x0. split; [by rewrite Hf in Hx1|].
      apply list_elem_of_In, filter_In in Hx0 as [Hx0 _]. by apply list_elem_of_In.
    + by constructor.
Qed.

Lemma filter_all {A : Type} (l : list A) : List.filter (fun _ => true) l = l.
Proof. induction l as [|x l IH]; cbn [List.filter]; [done | by rewrite IH]. Qed.

Lemma wfNode_copyKept (n : node) (src : string) :
  wfNode n = true -> wfNode (copyKept src n) = true.
Proof.
  revert src. induction n as [d|es IH] using node_tree_ind; intros src Hwf; [done|].
  rewrite copyKept_Dir. apply wfNode_map_filter; [done..|].
  apply wfNode_Dir in Hwf as (_ & _ & Hwf).
  rewrite Forall_forall in IH, Hwf. apply Forall_forall.
  intros e He. apply IH; [done|]. by apply Hwf.
Qed.

Lemma wfNode_addMarkerNode (n : node) :
  wfNode n = true -> wfNode (addMarkerNode n) = true.
Proof.
  induction n as [d|es IH] using node_tree_ind; intros Hwf; [done|].
  rewrite addMarkerNode_Dir. destruct es as [|e es]; [done|].
  rewrite <- (filter_all (e :: es)) at 1.
  apply wfNode_map_filter; [done..|].
  apply wfNode_Dir in Hwf as (_ & _ & Hwf).
  rewrite Forall_forall in IH, Hwf. apply Forall_forall.
  intros x Hx. apply IH; [done|]. by apply Hwf.
Qed.

Lemma wfNode_goldenOf (n : node) (src : string) :
  wfNode n = true -> wfNode (goldenOf src n) = true.
Proof. intros Hwf. by apply wfNode_addMarkerNode, wfNode_copyKept. Qed.

(** Without an unreadable entry the walk of [treeContent] has no error. *)
Lemma readable_walk (n : node) (path : string) :
  readable n = true -> Forall (fun it => it.2 <> File None) (walk path n).
Proof.
  revert path. induction n as [d|es IH] using node_tree_ind; intros path Hr.
  - constructor; [|constructor]. simpl in *. destruct d; [done|].
    by apply bool_decide_eq_true in Hr as [? ?].
  - rewrite walk_Dir. constructor; [done|].
    apply readable_Dir in Hr.
    induction IH as [|[name c] l Hc _ IHl]; cbn [flat_map]; [constructor|].
    apply Forall_cons in Hr as [Hrc Hr].
    apply Forall_app. split; [by apply Hc | by apply IHl].
Qed.

Lemma walkM_treeContentFn_total (dir : string) (hdr : option string)
    (l : list (string * node)) (m : gmap string string) :
  Forall (fun it => it.2 <> File None) l ->
  is_Some (walkM (treeContentFn dir hdr) m l).
Proof.
  intros Hall. revert m.
  induction Hall as [|[path info] l Hinfo _ IH]; intros m; cbn [walkM]; [by eexists|].
  unfold treeContentFn at 1.
  destruct (decide (Path.Base path = fileForEmptyDir)); [apply IH|].
  destruct info as [[d|]|es]; [|done|apply IH].
  destruct hdr as [h|]; [destruct (Path.HasPrefix d h)|]; apply IH.
Qed.

Lemma treeContent_readable (dir : string) (n : node) (hdr : option string) :
  readable n = true -> is_Some (treeContent dir n hdr).
Proof. intros Hr. by apply walkM_treeContentFn_total, readable_walk. Qed.

End golden_facts.

(** ** The outcome of a call *)

Section outcome_facts.

(** What update mode does when the actual path holds a directory whose
    copy succeeds. *)
Lemma update_Dir (lstat : kinds) (fs : fsys) (p goldPath : string)
    (es : list (string * node)) :
  p <> goldPath -> fs !! p = Some (Dir es) ->
  copiedAsRead lstat p goldPath (Dir es) = true ->
  CompareTreesWithFiltering lstat p goldPath true fs
  = compareTrees p goldPath (<[goldPath := goldenOf p (Dir es)]> (delete goldPath fs)).
Proof.
  intros Hne Hp Hes. unfold CompareTreesWithFiltering.
  rewrite lookup_delete_ne, Hp by done.
  rewrite (CopyTree_asRead lstat _ p goldPath es);
    [|by rewrite lookup_delete_ne | by rewrite lookup_delete_eq | done].
  unfold addEmptyMarker. rewrite lookup_insert_eq. by rewrite insert_insert_eq.
Qed.

(** What update mode does when the actual path is missing. *)
Lemma update_absent (lstat : kinds) (fs : fsys) (p goldPath : string) :
  delete goldPath fs !! p = None ->
  CompareTreesWithFiltering lstat p goldPath true fs = Returned (delete goldPath fs) [].
Proof. intros Hp. unfold CompareTreesWithFiltering. by rewrite Hp. Qed.

Lemma compareTrees_absent (fs : fsys) (p goldPath : string) :
  fs !! p = None -> fs !! goldPath = None ->
  compareTrees p goldPath fs = Returned fs [].
Proof. intros Hp Hg. unfold compareTrees, snapshotAt. by rewrite Hp, Hg. Qed.

(** When both snapshots are taken and are equal, nothing is recorded. *)
Lemma compareTrees_equal (fs : fsys) (p goldPath : string) (n g : node)
    (r : gmap string string) :
  fs !! p = Some n -> fs !! goldPath = Some g ->
  treeContent p n (Some magic) = Some r ->
  treeContent goldPath g None = Some r ->
  compareTrees p goldPath fs = Returned fs [].
Proof.
  intros Hp Hg Hn Hgold. unfold compareTrees, snapshotAt. rewrite Hp, Hg, Hn, Hgold.
  rewrite decide_True by done. apply checkDconfDBs_silent.
Qed.

(** The comparison of a tree with the golden tree made from it. *)
Lemma compareTrees_golden (fs : fsys) (p goldPath src : string)
    (es : list (string * node)) :
  plainPath p = true -> plainPath goldPath = true ->
  Path.Base p <> fileForEmptyDir -> Path.Base goldPath <> fileForEmptyDir ->
  wfNode (Dir es) = true -> readable (Dir es) = true ->
  fs !! p = Some (Dir es) -> fs !! goldPath = Some (goldenOf src (Dir es)) ->
  compareTrees p goldPath fs = Returned fs [].
Proof.
  intros Hpp Hpg Hbp Hbg Hwf Hr Hp Hg.
  destruct (treeContent_readable p (Dir es) (Some magic) Hr) as [r Hgot].
  apply (compareTrees_equal fs p goldPath (Dir es) (goldenOf src (Dir es)) r);
    [done..|].
  rewrite treeContent_rel by (done || by apply wfNode_goldenOf).
  rewrite roundtrip_relContent by done.
  by rewrite <- (treeContent_rel p) by done.
Qed.

(** The comparison in full: the structural check adds nothing. *)
Lemma compareTrees_spec (fs : fsys) (p goldPath : string) :
  compareTrees p goldPath fs
  = match snapshotAt fs p (Some magic) with
    | None => Stopped fs [] NoGeneratedContent
    | Some gotContent =>
        match snapshotAt fs goldPath None with
        | None => Stopped fs [] NoGoldenDirectory
        | Some goldContent =>
            Returned fs (if decide (goldContent = gotContent) then []
                         else [ContentDiffers goldContent gotContent])
        end
    end.
Proof.
  unfold compareTrees.
  destruct (snapshotAt fs p (Some magic)) as [got|]; [|done].
  destruct (snapshotAt fs goldPath None) as [gold|]; [|done].
  destruct (fs !! p); [apply checkDconfDBs_silent | done].
Qed.

Lemma hasNoBinaryDB_Dir (es : list (string * node)) :
  hasNoBinaryDB (Dir es) = true <-> Forall (fun e => hasNoBinaryDB e.2 = true) es.
Proof.
  cbn [hasNoBinaryDB isBinaryDB negb andb].
  induction es as [|[name c] es IH].
  - split; [by constructor | done].
  - rewrite andb_true_iff, Forall_cons, IH. done.
Qed.



(** A cleaned root is none of the three paths on which [filepath.Join]
    inserts no separator. *)
Lemma cleanRoot_plain (p : string) : cleanRoot p = true -> plainPath p = true.
Proof.
  intros Hp. unfold plainPath.
  destruct (String.eqb_spec p ""), (String.eqb_spec p "."), (String.eqb_spec p "/");
    by subst.
Qed.



End outcome_facts.

(** C3, as stated, fails: for an actual tree whose root directory is named
    [.empty], the snapshot of the actual path has no entry for the root
    while the snapshot of the golden path has one, and both calls record
    that the contents differ. *)
Lemma C3_root_named_as_marker :
  let fs : fsys := {[ "/tmp/.empty" := Dir [("a", File (Some "x"))] ]} in
  let fs' : fsys := <["/g" := Dir [("a", File (Some "x"))]]> fs in
  let differ := ContentDiffers (Some (<["/a" := "x"]> (<["" := ""]> ∅)))
                               (Some (<["/a" := "x"]> ∅)) in
  CompareTreesWithFiltering allRegular "/tmp/.empty" "/g" true fs
  = Returned fs' [differ]
  /\ CompareTreesWithFiltering allRegular "/tmp/.empty" "/g" false fs'
     = Returned fs' [differ].
Proof. vm_compute. done. Qed.

(** The other conditions of the amended statement are needed as well.  A
    regular file that cannot be read stops the copy, and the golden tree
    is left as far as it was written. *)
Example update_unreadable_file :
  let fs : fsys := {[ "/t" := Dir [("a", File (Some "x")); ("secret", File None)] ]} in
  CompareTreesWithFiltering allRegular "/t" "/g" true fs
  = Stopped (<["/g" := Dir [("a", File (Some "x"))]]> fs) [] CannotCopy.
Proof. vm_compute. done. Qed.

(** A symbolic link that cannot be read is re-created, and the snapshot of
    the actual path then stops the test. *)
Example update_dangling_link :
  let fs : fsys := {[ "/t" := Dir [("link", File None)] ]} in
  CompareTreesWithFiltering (fun _ => Symlink (fun _ => None)) "/t" "/g" true fs
  = Stopped (<["/g" := Dir [("link", File None)]]> fs) [] NoGeneratedContent.
Proof. vm_compute. done. Qed.

(** A symbolic link with a relative text can be read in the actual tree
    and dangle in the golden tree: the snapshot of the golden path stops
    the test. *)
Example update_relative_link :
  let fs : fsys := {[ "/t" := Dir [("link", File (Some "x"))] ]} in
  CompareTreesWithFiltering (fun _ => Symlink (fun _ => None)) "/t" "/g" true fs
  = Stopped (<["/g" := Dir [("link", File None)]]> fs) [] NoGoldenDirectory.
Proof. vm_compute. done. Qed.

(** Below the root [.] the keys of the actual tree have no leading
    separator while those of the golden tree have one. *)
Example update_relative_root :
  exists fs',
    CompareTreesWithFiltering allRegular "." "/g" true
      {[ "." := Dir [("a", File (Some "x"))] ]}
    = Returned fs' [ContentDiffers (Some (<["/a" := "x"]> (<["" := ""]> ∅)))
                                   (Some (<["a" := "x"]> (<["" := ""]> ∅)))].
Proof. eexists. vm_compute. reflexivity. Qed.

(** C3, amended. Update then compare: for an actual path that is missing,
    or that holds a well-formed directory tree whose entries can all be
    read, in place and in the copy, and for cleaned root paths, neither
    below the other, not themselves named [.empty] and without glob
    metacharacter, the call in update mode returns without failure and so
    does the comparison that follows. *)
Theorem C3_update_then_compare (lstat : kinds) (fs : fsys) (p goldPath : string) :
  cleanRoot p = true -> cleanRoot goldPath = true ->
  notNested p goldPath = true -> hasMeta p = false ->
  Path.Base p <> fileForEmptyDir -> Path.Base goldPath <> fileForEmptyDir ->
  (forall n, fs !! p = Some n ->
             IsDir n = true /\ wfNode n = true /\ noMetaNames n = true
             /\ readable n = true /\ copiedAsRead lstat p goldPath n = true) ->
  exists fs',
    CompareTreesWithFiltering lstat p goldPath true fs = Returned fs' []
    /\ CompareTreesWithFiltering lstat p goldPath false fs' = Returned fs' [].
Proof.
  intros Hpp%cleanRoot_plain Hpg%cleanRoot_plain _ _ Hbp Hbg Hn.
  destruct (delete goldPath fs !! p) as [n|] eqn:Hp.
  - apply lookup_delete_Some in Hp as [Hne Hp].
    destruct (Hn n Hp) as (Hdir & Hwf & _ & Hr & Hcopy).
    destruct n as [d|es]; [done|].
    exists (<[goldPath := goldenOf p (Dir es)]> (delete goldPath fs)).
    rewrite (update_Dir lstat fs p goldPath es) by done.
    cbn [CompareTreesWithFiltering].
    split; apply (compareTrees_golden _ p goldPath p es); try done.
    all: try by rewrite lookup_insert_eq.
    all: by rewrite lookup_insert_ne, lookup_delete_ne.
  - exists (delete goldPath fs). rewrite update_absent by done.
    split; [done|]. cbn [CompareTreesWithFiltering].
    apply compareTrees_absent; [done|]. by rewrite lookup_delete_eq.
Qed.

Lemma C3_update_then_compare_witness :
  exists fs',
    CompareTreesWithFiltering allRegular "/t" "/g" true {[ "/t" := tree1 ]}
    = Returned fs' []
    /\ CompareTreesWithFiltering allRegular "/t" "/g" false fs' = Returned fs' [].
Proof.
  apply (C3_update_then_compare allRegular {[ "/t" := tree1 ]} "/t" "/g").
  - reflexivity.
  - reflexivity.
  - reflexivity.
  - reflexivity.
  - vm_compute. discriminate.
  - vm_compute. discriminate.
  - intros n Hn. rewrite lookup_singleton_eq in Hn. injection Hn as <-.
    vm_compute. done.
Defined.






(** ** Distinct entries have distinct paths *)

Section unique_paths.

#[local] Arguments String.append !_ _ / : simpl nomatch.

Lemma name_tail_inj (n1 n2 s1 s2 : string) :
  Path.has_sep n1 = false -> Path.has_sep n2 = false ->
  pathTail s1 -> pathTail s2 ->
  n1 +:+ s1 = n2 +:+ s2 -> n1 = n2.
Proof.
  revert n2. induction n1 as [|c n1 IH]; intros [|c2 n2] H1 H2 Hs1 Hs2 Heq.
  - done.
  - simpl in Heq, H2. apply orb_false_elim in H2 as [Hc2 _].
    destruct Hs1 as [->|[t ->]]; [done|]. simpl in Heq. injection Heq as <- _.
    done.
  - simpl in Heq, H1. apply orb_false_elim in H1 as [Hc _].
    destruct Hs2 as [->|[t ->]]; [done|]. simpl in Heq. injection Heq as -> _.
    done.
  - simpl in Heq, H1, H2. injection Heq as -> Heq.
    apply orb_false_elim in H1 as [_ H1]. apply orb_false_elim in H2 as [_ H2].
    f_equal. by apply IH.
Qed.

Lemma rwalk_paths (n : node) (rel : string) :
  Forall (fun it => exists s, it.1 = rel +:+ s /\ pathTail s) (rwalk rel n).
Proof.
  rewrite rwalk_cons. constructor.
  - exists "". split; [by rewrite append_nil_r | by left].
  - eapply Forall_impl; [apply rwalk_below|].
    intros [q x] [s Hs]. exists ("/" +:+ s). split; [done | right; by exists s].
Qed.

Lemma rwalk_NoDup (n : node) :
  wfNode n = true -> forall rel, NoDup (fst <$> rwalk rel n).
Proof.
  induction n as [d|es IH] using node_tree_ind; intros Hwf rel.
  - cbn. apply NoDup_singleton.
  - rewrite rwalk_Dir, fmap_cons. apply NoDup_cons. split.
    + intros ([q x] & Hq & Hin)%list_elem_of_fmap. simpl in Hq. subst q.
      pose proof (rwalk_below (Dir es) rel) as Hb.
      rewrite rwalk_Dir in Hb. simpl in Hb. rewrite Forall_forall in Hb.
      destruct (Hb _ Hin) as [s Hs]. simpl in Hs.
      rewrite <- (append_nil_r rel) in Hs at 1.
      by apply (inj (String.app rel)) in Hs.
    + apply wfNode_Dir in Hwf as (Hnames & Hnd & Hwf).
      induction IH as [|[name c] l Hc _ IHl]; cbn [flat_map]; [constructor|].
      apply Forall_cons in Hnames as [Hname Hnames].
      apply Forall_cons in Hwf as [Hwfc Hwf].
      rewrite fmap_cons in Hnd. apply NoDup_cons in Hnd as [Hnotin Hnd].
      rewrite fmap_app. apply NoDup_app. split_and!; [by apply Hc| |by apply IHl].
      intros q ([q1 x1] & Hq1 & Hin1)%list_elem_of_fmap
               ([q2 x2] & Heq & Hin2)%list_elem_of_fmap.
      simpl in Hq1, Heq. subst q. subst q1.
      apply list_elem_of_In, in_flat_map in Hin2 as ([name2 c2] & He2 & Hin2).
      apply list_elem_of_In in Hin2. simpl in Hin2.
      pose proof (rwalk_paths c (rel +:+ "/" +:+ name)) as P1.
      pose proof (rwalk_paths c2 (rel +:+ "/" +:+ name2)) as P2.
      rewrite Forall_forall in P1, P2.
      destruct (P1 _ Hin1) as (s1 & Hq1 & Hs1). simpl in Hq1. subst q2.
      destruct (P2 _ Hin2) as (s2 & Heq & Hs2). simpl in Heq.
      rewrite !append_assoc in Heq.
      apply (inj (String.app rel)) in Heq. simpl in Heq. injection Heq as Heq.
      apply validName_spec in Hname as [_ Hsep].
      rewrite Forall_forall in Hnames. apply list_elem_of_In in He2.
      pose proof (Hnames _ He2) as [_ Hsep2]%validName_spec. simpl in Hsep2.
      apply name_tail_inj in Heq; [|done..]. subst name2.
      apply Hnotin. apply list_elem_of_fmap. by exists (name, c2).
Qed.

(** In a well-formed tree a relative path names one entry. *)
Lemma rwalk_unique (n : node) (rel : string) (x y : node) :
  wfNode n = true ->
  (rel, x) ∈ rwalk "" n -> (rel, y) ∈ rwalk "" n -> x = y.
Proof.
  intros Hwf. apply NoDup_fst_unique. by apply rwalk_NoDup.
Qed.

End unique_paths.

(** ** What the golden tree holds *)

Section golden_content.

#[local] Arguments String.append !_ _ / : simpl nomatch.

(** An entry that the copy keeps is not a binary database. *)
Lemma keepEntry_not_binary (src : string) (es : list (string * node))
    (e : string * node) :
  e ∈ es -> keepEntry (ignoreDconfDB src es) e = true -> isBinaryDB e.2 = false.
Proof.
  intros He Hk. unfold keepEntry in Hk. apply negb_true_iff, bool_decide_eq_false in Hk.
  destruct (isBinaryDB e.2) eqn:Hb; [|done]. destruct Hk.
  apply ignoreDconfDB_spec. destruct e as [name [[d|]|es0]]; simpl in Hb; try done.
  by exists d.
Qed.

(** No file of the golden tree is a binary database. *)
Lemma goldenOf_no_binary (c : node) :
  isBinaryDB c = false ->
  forall src rel, Forall (fun it => isBinaryDB it.2 = false) (rwalk rel (goldenOf src c)).
Proof.
  induction c as [d|es IH] using node_tree_ind; intros Hb src rel.
  - unfold goldenOf. cbn [copyKept addMarkerNode rwalk]. by repeat constructor.
  - unfold goldenOf. rewrite copyKept_Dir, addMarkerNode_Dir, rwalk_Dir.
    constructor; [done|].
    assert (Hkept : Forall (fun e => isBinaryDB e.2 = false /\ e ∈ es)
                      (List.filter (keepEntry (ignoreDconfDB src es)) es)).
    { apply Forall_forall. intros e [He Hk]%list_elem_of_In%filter_In.
      apply list_elem_of_In in He. split; [|done].
      by apply (keepEntry_not_binary src es). }
    assert (Haux : forall l,
              Forall (fun e => isBinaryDB e.2 = false /\ e ∈ es) l ->
              Forall (fun it => isBinaryDB it.2 = false)
                (flat_map (fun e => rwalk (rel +:+ "/" +:+ e.1) e.2)
                   (markEntry <$> (copyEntry src <$> l)))).
    { rewrite Forall_forall in IH.
      induction 1 as [|[name c] l [Hc Hin] _ IHl]; [constructor|].
      rewrite !fmap_cons. cbn [flat_map]. apply Forall_app. split; [|done].
      cbn [markEntry copyEntry fst snd].
      by apply (IH (name, c) Hin Hc). }
    destruct (List.filter (keepEntry (ignoreDconfDB src es)) es) as [|e l].
    + cbn. repeat constructor.
    + exact (Haux _ Hkept).
Qed.

(** An empty directory of the actual tree is, in the golden tree, a
    directory that holds the marker and nothing else. *)
Lemma goldenOf_empty_dir (c : node) :
  wfNode c = true ->
  forall src rel0 rel,
    (rel, Dir []) ∈ rwalk rel0 c ->
    (rel, Dir [emptyMarker]) ∈ rwalk rel0 (goldenOf src c).
Proof.
  induction c as [d|es IH] using node_tree_ind; intros Hwf src rel0 rel Hin.
  - cbn in Hin. by apply list_elem_of_singleton in Hin.
  - rewrite rwalk_Dir in Hin. apply elem_of_cons in Hin as [Heq|Hin].
    + injection Heq as -> <-. cbn. by left.
    + apply list_elem_of_In, in_flat_map in Hin as ([name c] & He & Hin).
      apply list_elem_of_In in He, Hin. cbn [fst snd] in Hin.
      apply wfNode_Dir in Hwf as (_ & Hnd & Hwf).
      rewrite Forall_forall in IH, Hwf.
      assert (Hc : isBinaryDB c = false).
      { destruct c as [d|es']; [|done]. cbn in Hin.
        by apply list_elem_of_singleton in Hin. }
      assert (Hkeep : (name, c) ∈ List.filter (keepEntry (ignoreDconfDB src es)) es).
      { apply list_elem_of_In, filter_In. split; [by apply list_elem_of_In|].
        rewrite (keepEntry_isBinaryDB src es) by done. cbn [snd]. by rewrite Hc. }
      unfold goldenOf. rewrite copyKept_Dir, addMarkerNode_Dir, rwalk_Dir.
      apply elem_of_cons. right.
      destruct (List.filter (keepEntry (ignoreDconfDB src es)) es) as [|e l];
        [by apply elem_of_nil in Hkeep|].
      change ((rel, Dir [emptyMarker])
              ∈ flat_map (fun e => rwalk (rel0 +:+ "/" +:+ e.1) e.2)
                  (markEntry <$> (copyEntry src <$> (e :: l)))).
      apply list_elem_of_In, in_flat_map.
      exists (markEntry (copyEntry src (name, c))). split.
      * apply list_elem_of_In. by do 2 apply list_elem_of_fmap_2.
      * apply list_elem_of_In. cbn [markEntry copyEntry fst snd].
        by apply (IH (name, c) He (Hwf _ He)).
Qed.

Lemma fsOf_compareTrees (fs : fsys) (p goldPath : string) :
  fsOf (compareTrees p goldPath fs) = fs.
Proof.
  rewrite compareTrees_spec.
  destruct (snapshotAt fs p (Some magic)); [|done].
  by destruct (snapshotAt fs goldPath None).
Qed.

(** The file system that update mode leaves when the actual path holds a
    directory whose copy succeeds. *)
Lemma fsOf_update_Dir (lstat : kinds) (fs : fsys) (p goldPath : string)
    (es : list (string * node)) :
  p <> goldPath -> fs !! p = Some (Dir es) ->
  copiedAsRead lstat p goldPath (Dir es) = true ->
  fsOf (CompareTreesWithFiltering lstat p goldPath true fs)
  = <[goldPath := goldenOf p (Dir es)]> (delete goldPath fs).
Proof.
  intros Hne Hp Hes. rewrite (update_Dir lstat fs p goldPath es) by done.
  apply fsOf_compareTrees.
Qed.

(** Every entry of the golden tree is a marker or comes from an entry of
    the actual tree that is not a binary database. *)
Lemma goldenOf_inv (c : node) :
  isBinaryDB c = false ->
  forall src rel0 rel x,
    (rel, x) ∈ rwalk rel0 (goldenOf src c) ->
    (exists a, rel = a +:+ "/" +:+ fileForEmptyDir)
    \/ (exists y, (rel, y) ∈ rwalk rel0 c /\ isBinaryDB y = false).
Proof.
  induction c as [d|es IH] using node_tree_ind; intros Hb src rel0 rel x Hin.
  - unfold goldenOf in Hin. cbn [copyKept addMarkerNode rwalk] in Hin.
    apply list_elem_of_singleton in Hin as [= -> ->].
    right. exists (File d). split; [by left | done].
  - unfold goldenOf in Hin. rewrite copyKept_Dir, addMarkerNode_Dir, rwalk_Dir in Hin.
    apply elem_of_cons in Hin as [[= -> ->]|Hin].
    { right. exists (Dir es). split; [rewrite rwalk_cons; by left | done]. }
    assert (Haux : forall l,
              Forall (fun e => isBinaryDB e.2 = false /\ e ∈ es) l ->
              (rel, x) ∈ flat_map (fun e => rwalk (rel0 +:+ "/" +:+ e.1) e.2)
                           (markEntry <$> (copyEntry src <$> l)) ->
              (exists a, rel = a +:+ "/" +:+ fileForEmptyDir)
              \/ (exists y, (rel, y) ∈ rwalk rel0 (Dir es) /\ isBinaryDB y = false)).
    { intros l Hl (e' & He' & Hx)%list_elem_of_In%in_flat_map.
      apply list_elem_of_In in He', Hx.
      apply list_elem_of_fmap in He' as (e1 & -> & He1).
      apply list_elem_of_fmap in He1 as ([name c] & -> & He).
      rewrite Forall_forall in Hl, IH. destruct (Hl _ He) as [Hc Hes].
      cbn [markEntry copyEntry fst snd] in Hx.
      destruct (IH _ Hes Hc _ _ _ _ Hx) as [Hm|(y & Hy & Hyb)]; [by left|].
      right. exists y. split; [|done].
      rewrite rwalk_Dir. apply elem_of_cons. right.
      apply list_elem_of_In, in_flat_map. exists (name, c).
      split; by apply list_elem_of_In. }
    assert (Hkept : Forall (fun e => isBinaryDB e.2 = false /\ e ∈ es)
                      (List.filter (keepEntry (ignoreDconfDB src es)) es)).
    { apply Forall_forall. intros e [He Hk]%list_elem_of_In%filter_In.
      apply list_elem_of_In in He. split; [|done].
      by apply (keepEntry_not_binary src es). }
    destruct (List.filter (keepEntry (ignoreDconfDB src es)) es) as [|e l].
    + cbn in Hin. apply list_elem_of_singleton in Hin as [= -> ->].
      left. by exists rel0.
    + by apply (Haux (e :: l)).
Qed.

(** A binary database of the actual tree has no entry in its snapshot. *)
Lemma binaryDB_not_in_snapshot (p : string) (n : node) (path d : string)
    (got : gmap string string) :
  plainPath p = true -> wfNode n = true ->
  (path, File (Some d)) ∈ walk p n -> Path.HasPrefix d magic = true ->
  treeContent p n (Some magic) = Some got ->
  got !! Path.TrimPrefix path p = None.
Proof.
  intros Hp Hwf Hin Hd Hgot.
  destruct (got !! Path.TrimPrefix path p) as [v|] eqn:Hk; [|done]. exfalso.
  unfold treeContent in Hgot.
  destruct (walkM_treeContentFn_inv _ _ _ _ _ _ _ Hgot Hk)
    as [Hempty|(path' & info & Hin' & _ & Hkey & Hnb)];
    [by rewrite lookup_empty in Hempty|].
  apply walk_plain_elem in Hin as (rel & -> & Hin); [|done].
  apply walk_plain_elem in Hin' as (rel' & -> & Hin'); [|done].
  rewrite !TrimPrefix_app in Hkey. subst rel'.
  rewrite (rwalk_unique n rel _ _ Hwf Hin' Hin) in Hnb.
  specialize (Hnb eq_refl). simpl in Hnb. congruence.
Qed.

(** Nor has it an entry in the snapshot of the golden tree. *)
Lemma binaryDB_not_in_golden_snapshot (p goldPath src : string) (n : node)
    (path d : string) (gold : gmap string string) :
  plainPath p = true -> plainPath goldPath = true ->
  wfNode n = true -> isBinaryDB n = false ->
  (path, File (Some d)) ∈ walk p n -> Path.HasPrefix d magic = true ->
  treeContent goldPath (goldenOf src n) None = Some gold ->
  gold !! Path.TrimPrefix path p = None.
Proof.
  intros Hp Hg Hwf Hnb Hin Hd Hgold.
  destruct (gold !! Path.TrimPrefix path p) as [v|] eqn:Hk; [|done]. exfalso.
  unfold treeContent in Hgold.
  destruct (walkM_treeContentFn_inv _ _ _ _ _ _ _ Hgold Hk)
    as [Hempty|(path' & info & Hin' & Hbase & Hkey & _)];
    [by rewrite lookup_empty in Hempty|].
  apply walk_plain_elem in Hin as (rel & -> & Hin); [|done].
  apply walk_plain_elem in Hin' as (rel' & -> & Hin'); [|done].
  rewrite !TrimPrefix_app in Hkey. subst rel'.
  destruct (goldenOf_inv n Hnb _ _ _ _ Hin') as [[a ->]|(y & Hy & Hyb)].
  - apply Hbase. rewrite <- (append_assoc goldPath a). by apply Base_app.
  - rewrite (rwalk_unique n rel _ _ Hwf Hy Hin) in Hyb. simpl in Hyb. congruence.
Qed.

End golden_content.

(** ** A copy that fails, and what a copy that succeeds writes *)

Section copy_outcome.

#[local] Arguments String.append !_ _ / : simpl nomatch.

(** The ways of a call in update mode. *)
Lemma update_cases (lstat : kinds) (fs : fsys) (p goldPath : string) :
  CompareTreesWithFiltering lstat p goldPath true fs
  = match delete goldPath fs !! p with
    | None => Returned (delete goldPath fs) []
    | Some (File _) => Stopped (delete goldPath fs) [] CannotCopy
    | Some (Dir es) =>
        let '(c, ok) := copyNode lstat p goldPath (Dir es) in
        if ok
        then compareTrees p goldPath (<[goldPath := addMarkerNode c]> (delete goldPath fs))
        else Stopped (<[goldPath := c]> (delete goldPath fs)) [] CannotCopy
    end.
Proof.
  cbn [CompareTreesWithFiltering]. unfold CopyTree, addEmptyMarker.
  destruct (delete goldPath fs !! p) as [[d|es]|] eqn:Hp; [done| |done].
  rewrite lookup_delete_eq.
  destruct (copyNode lstat p goldPath (Dir es)) as [c [|]]; [|done].
  rewrite lookup_insert_eq. by rewrite insert_insert_eq.
Qed.

(** Update mode looks at the file system only after the golden path is
    removed, and what it leaves differs from that at the golden path
    only. *)
Lemma update_delete (lstat : kinds) (fs : fsys) (p goldPath : string) :
  CompareTreesWithFiltering lstat p goldPath true (delete goldPath fs)
  = CompareTreesWithFiltering lstat p goldPath true fs.
Proof. rewrite !update_cases. by rewrite delete_delete_eq. Qed.

Lemma delete_fsOf_update (lstat : kinds) (fs : fsys) (p goldPath : string) :
  delete goldPath (fsOf (CompareTreesWithFiltering lstat p goldPath true fs))
  = delete goldPath fs.
Proof.
  rewrite update_cases.
  destruct (delete goldPath fs !! p) as [[d|es]|];
    [| destruct (copyNode lstat p goldPath (Dir es)) as [c [|]] |];
    cbn [fsOf]; rewrite ?fsOf_compareTrees, ?delete_insert_eq;
    by rewrite delete_delete_eq.
Qed.

(** The loop of the copy fails exactly at a regular file that cannot be
    read or at a sub-directory whose copy fails. *)
Lemma copyEntriesOf_fails (lstat : kinds) (src dst : string) (ign : list string)
    (l : list (string * node)) :
  Forall (fun e => isBinaryDB e.2 = false -> e.1 ∉ ign) l ->
  (copyEntriesOf lstat src dst ign l).2 = false
  <-> exists name c,
        (name, c) ∈ l
        /\ match c with
           | File d => d = None /\ lstat (Path.Join src name) = Regular
           | Dir _ =>
               (copyNode lstat (Path.Join src name) (Path.Join dst name) c).2 = false
           end.
Proof.
  induction 1 as [|[name c] l Hc _ IH]; cbn [copyEntriesOf].
  { split; [done | by intros (? & ? & ?%elem_of_nil & _)]. }
  cbn [fst snd] in Hc.
  assert (Hskip : (copyEntriesOf lstat src dst ign l).2 = false
            <-> (exists name0 c0, (name0, c0) ∈ l
                   /\ match c0 with
                      | File d => d = None /\ lstat (Path.Join src name0) = Regular
                      | Dir _ =>
                          (copyNode lstat (Path.Join src name0)
                             (Path.Join dst name0) c0).2 = false
                      end)) by exact IH.
  destruct (bool_decide (name ∈ ign)) eqn:Hname.
  - apply bool_decide_eq_true in Hname.
    assert (Hb : isBinaryDB c = true).
    { destruct (isBinaryDB c) eqn:Hb; [done|]. by destruct (Hc eq_refl). }
    destruct c as [[d|]|es0]; simpl in Hb; try done.
    rewrite Hskip. split.
    + intros (name0 & c0 & Hin & H0). exists name0, c0. split; [by right | done].
    + intros (name0 & c0 & Hin & H0).
      apply elem_of_cons in Hin as [[= -> ->]|Hin]; [by destruct H0 | by exists name0, c0].
  - destruct c as [d|es0].
    + destruct (copyFile (lstat (Path.Join src name)) (Path.Join dst name) d)
        as [d'|] eqn:Hcopy.
      * destruct (copyEntriesOf lstat src dst ign l) as [r okr]. cbn [snd] in *.
        rewrite Hskip. split.
        -- intros (name0 & c0 & Hin & H0). exists name0, c0. split; [by right | done].
        -- intros (name0 & c0 & Hin & H0).
           apply elem_of_cons in Hin as [[= -> ->]|Hin]; [|by exists name0, c0].
           destruct H0 as [-> Hk]. by rewrite Hk in Hcopy.
      * split; [intros _ | done]. exists name, (File d). split; [by left|].
        unfold copyFile in Hcopy.
        destruct (lstat (Path.Join src name)); [|done]. by destruct d.
    + destruct (copyNode lstat (Path.Join src name) (Path.Join dst name) (Dir es0))
        as [c' [|]] eqn:Hsub.
      * destruct (copyEntriesOf lstat src dst ign l) as [r okr]. cbn [snd] in *.
        rewrite Hskip. split.
        -- intros (name0 & c0 & Hin & H0). exists name0, c0. split; [by right | done].
        -- intros (name0 & c0 & Hin & H0).
           apply elem_of_cons in Hin as [[= -> ->]|Hin]; [|by exists name0, c0].
           by rewrite Hsub in H0.
      * split; [intros _ | done]. exists name, (Dir es0). split; [by left|].
        by rewrite Hsub.
Qed.

(** The copy of a well-formed directory fails exactly when the tree holds
    a regular file that cannot be read. *)
Lemma copyNode_fails (lstat : kinds) (n : node) :
  wfNode n = true -> IsDir n = true ->
  forall src dst,
    (copyNode lstat src dst n).2 = false
    <-> exists path, (path, File None) ∈ walk src n /\ lstat path = Regular.
Proof.
  induction n as [d|es IH] using node_tree_ind; intros Hwf Hdir src dst; [done|].
  apply wfNode_Dir in Hwf as (_ & Hnd & Hwf).
  rewrite copyNode_Dir.
  assert (Hloop : (let '(copied, ok) :=
                     copyEntriesOf lstat src dst (ignoreDconfDB src es) es in
                   (Dir copied, ok)).2
                  = (copyEntriesOf lstat src dst (ignoreDconfDB src es) es).2)
    by by destruct (copyEntriesOf lstat src dst (ignoreDconfDB src es) es).
  rewrite Hloop, copyEntriesOf_fails, walk_Dir.
  2:{ apply Forall_forall. intros e He Hb.
      pose proof (keepEntry_isBinaryDB src es e Hnd He) as Hk.
      rewrite Hb in Hk. unfold keepEntry in Hk.
      by apply negb_true_iff, bool_decide_eq_false in Hk. }
  rewrite Forall_forall in IH, Hwf. split.
  - intros (name & c & Hin & Hc).
    assert (Hsub : exists path, (path, File None) ∈ walk (Path.Join src name) c
                                /\ lstat path = Regular).
    { destruct c as [d|es0].
      - destruct Hc as [-> Hk]. exists (Path.Join src name). split; [by left | done].
      - by apply (IH _ Hin (Hwf _ Hin) eq_refl (Path.Join src name) (Path.Join dst name)). }
    destruct Hsub as (path & Hpath & Hk). exists path. split; [|done].
    right. apply list_elem_of_In, in_flat_map. exists (name, c).
    split; by apply list_elem_of_In.
  - intros (path & Hpath & Hk).
    apply elem_of_cons in Hpath as [[=]|Hpath].
    apply list_elem_of_In, in_flat_map in Hpath as ([name c] & Hin & Hpath).
    apply list_elem_of_In in Hin, Hpath. cbn [fst snd] in Hpath.
    exists name, c. split; [done|]. destruct c as [d|es0].
    + apply list_elem_of_singleton in Hpath as [= -> <-]. done.
    + apply (IH _ Hin (Hwf _ Hin) eq_refl). by exists path.
Qed.

(** A sub-directory that the filter does not name is in a copy that
    succeeds, and its own copy succeeded. *)
Lemma copyEntriesOf_dir (lstat : kinds) (src dst : string) (ign : list string)
    (es copied : list (string * node)) (name : string) (es0 : list (string * node)) :
  (name, Dir es0) ∈ es -> name ∉ ign ->
  copyEntriesOf lstat src dst ign es = (copied, true) ->
  exists c', copyNode lstat (Path.Join src name) (Path.Join dst name) (Dir es0)
             = (c', true)
             /\ (name, c') ∈ copied.
Proof.
  intros Hin Hign. revert copied.
  induction es as [|[name0 c] es IH]; intros copied; [by apply elem_of_nil in Hin|].
  cbn [copyEntriesOf].
  assert (Hrest : forall e copied',
            (name, Dir es0) ∈ es ->
            (let '(r, okr) := copyEntriesOf lstat src dst ign es in (e :: r, okr))
            = (copied', true) ->
            exists c', copyNode lstat (Path.Join src name) (Path.Join dst name)
                         (Dir es0) = (c', true)
                       /\ (name, c') ∈ copied').
  { intros e copied' Hes.
    destruct (copyEntriesOf lstat src dst ign es) as [r okr] eqn:Hr.
    intros [= <- ->]. destruct (IH Hes r eq_refl) as (c' & Hc' & Hin').
    exists c'. split; [done | by right]. }
  apply elem_of_cons in Hin as [Heq|Hin].
  - injection Heq as <- <-. rewrite bool_decide_eq_false_2 by done.
    destruct (copyNode lstat (Path.Join src name) (Path.Join dst name) (Dir es0))
      as [c' [|]]; [|done].
    destruct (copyEntriesOf lstat src dst ign es) as [r okr].
    intros [= <- ->]. exists c'. split; [done | by left].
  - destruct (bool_decide (name0 ∈ ign)); [by apply IH|].
    destruct c as [d0|es1].
    + destruct (copyFile (lstat (Path.Join src name0)) (Path.Join dst name0) d0)
        as [d0'|]; [by apply Hrest | done].
    + destruct (copyNode lstat (Path.Join src name0) (Path.Join dst name0) (Dir es1))
        as [c' [|]]; [by apply Hrest | done].
Qed.

(** What the loop writes, failed or not: under the names of some of the
    entries, in their order, well-formed trees. *)
Lemma copyEntriesOf_sub (lstat : kinds) (src dst : string) (ign : list string)
    (l : list (string * node)) :
  Forall (fun e => wfNode (copyNode lstat (Path.Join src e.1)
                             (Path.Join dst e.1) e.2).1 = true) l ->
  fst <$> (copyEntriesOf lstat src dst ign l).1 `sublist_of` fst <$> l
  /\ Forall (fun e => wfNode e.2 = true) (copyEntriesOf lstat src dst ign l).1.
Proof.
  induction 1 as [|[name c] l Hc _ [IHs IHw]]; cbn [copyEntriesOf].
  { split; constructor. }
  cbn [fst snd] in Hc. rewrite fmap_cons. cbn [fst].
  destruct (bool_decide (name ∈ ign)); [split; [by apply sublist_cons | done]|].
  destruct c as [d|es0].
  - destruct (copyFile (lstat (Path.Join src name)) (Path.Join dst name) d) as [d'|].
    + destruct (copyEntriesOf lstat src dst ign l) as [r okr]. cbn [fst] in *.
      split; [rewrite fmap_cons; by apply sublist_skip | by constructor].
    + split; [apply sublist_nil_l | constructor].
  - destruct (copyNode lstat (Path.Join src name) (Path.Join dst name) (Dir es0))
      as [c' [|]]; cbn [fst] in Hc.
    + destruct (copyEntriesOf lstat src dst ign l) as [r okr]. cbn [fst] in *.
      split; [rewrite fmap_cons; by apply sublist_skip | by constructor].
    + split; [apply sublist_skip, sublist_nil_l | by repeat constructor].
Qed.

(** What the copy writes is well formed. *)
Lemma wfNode_copyNode (lstat : kinds) (n : node) :
  wfNode n = true -> forall src dst, wfNode (copyNode lstat src dst n).1 = true.
Proof.
  induction n as [d|es IH] using node_tree_ind; intros Hwf src dst; [done|].
  apply wfNode_Dir in Hwf as (Hnames & Hnd & Hwf).
  assert (Hsub : Forall (fun e => wfNode (copyNode lstat (Path.Join src e.1)
                                            (Path.Join dst e.1) e.2).1 = true) es).
  { rewrite Forall_forall in IH, Hwf. apply Forall_forall. intros e He.
    by apply IH, Hwf. }
  apply (copyEntriesOf_sub lstat src dst (ignoreDconfDB src es)) in Hsub as [Hs Hw].
  rewrite copyNode_Dir.
  destruct (copyEntriesOf lstat src dst (ignoreDconfDB src es) es) as [copied ok].
  cbn [fst] in *. apply wfNode_Dir. split_and!; [|by eapply sublist_NoDup|done].
  rewrite Forall_forall in Hnames. apply Forall_forall. intros e He.
  assert (Hname : e.1 ∈ fst <$> es).
  { eapply elem_of_sublist; [|exact Hs]. by apply list_elem_of_fmap_2. }
  apply list_elem_of_fmap in Hname as (e' & -> & He'). by apply Hnames.
Qed.

(** An empty directory of the actual tree is, after a copy that succeeds
    and the markers, a directory that holds the marker and nothing else. *)
Lemma copyNode_empty_dir (lstat : kinds) (c : node) :
  wfNode c = true ->
  forall src dst rel0 rel,
    (copyNode lstat src dst c).2 = true ->
    (rel, Dir []) ∈ rwalk rel0 c ->
    (rel, Dir [emptyMarker]) ∈ rwalk rel0 (addMarkerNode (copyNode lstat src dst c).1).
Proof.
  induction c as [d|es IH] using node_tree_ind; intros Hwf src dst rel0 rel Hok Hin.
  - cbn in Hin. by apply list_elem_of_singleton in Hin.
  - rewrite rwalk_Dir in Hin. apply elem_of_cons in Hin as [Heq|Hin].
    + injection Heq as -> <-. cbn. by left.
    + apply list_elem_of_In, in_flat_map in Hin as ([name c] & He & Hin).
      apply list_elem_of_In in He, Hin. cbn [fst snd] in Hin.
      apply wfNode_Dir in Hwf as (_ & Hnd & Hwf).
      rewrite Forall_forall in IH, Hwf.
      destruct c as [d|es0]; [cbn in Hin; by apply list_elem_of_singleton in Hin|].
      assert (Hname : name ∉ ignoreDconfDB src es).
      { intros (d & Hd & _)%ignoreDconfDB_spec.
        by pose proof (NoDup_fst_unique es name _ _ Hnd He Hd). }
      rewrite copyNode_Dir in Hok |- *.
      destruct (copyEntriesOf lstat src dst (ignoreDconfDB src es) es)
        as [copied ok] eqn:Hloop.
      cbn [fst snd] in *. subst ok.
      destruct (copyEntriesOf_dir _ _ _ _ _ _ _ _ He Hname Hloop) as (c' & Hc' & Hin').
      rewrite addMarkerNode_Dir, rwalk_Dir. apply elem_of_cons. right.
      destruct copied as [|e l]; [by apply elem_of_nil in Hin'|].
      apply list_elem_of_In, in_flat_map.
      exists (markEntry (name, c')). split.
      * apply list_elem_of_In. by apply list_elem_of_fmap_2.
      * apply list_elem_of_In. cbn [markEntry fst snd].
        specialize (IH _ He (Hwf _ He) (Path.Join src name) (Path.Join dst name)
                      (rel0 +:+ "/" +:+ name) rel).
        cbn [snd] in IH. rewrite Hc' in IH. by apply IH.
Qed.

End copy_outcome.

(** C5, as stated, fails in its last part: a tree with a binary database
    whose root directory is named [.empty] does not compare equal to the
    golden tree made from it. *)
Lemma C5_root_named_as_marker :
  let fs : fsys := {[ "/tmp/.empty" := Dir [("db", File (Some "GVariant1"))] ]} in
  let fs' : fsys := <["/g" := Dir [(".empty", File (Some ""))]]> fs in
  let differ := ContentDiffers (Some (<["" := ""]> ∅)) (Some ∅) in
  CompareTreesWithFiltering allRegular "/tmp/.empty" "/g" true fs
  = Returned fs' [differ]
  /\ CompareTreesWithFiltering allRegular "/tmp/.empty" "/g" false fs'
     = Returned fs' [differ].
Proof. vm_compute. done. Qed.

(** C5, amended. In a directory tree whose kept entries are all copied
    and read in the copy as in place, below cleaned roots of which neither
    is below the other, a readable file of the actual tree that starts
    with [GVariant]: (a) update mode writes a golden tree in which no file
    starts with the prefix, so the file is not in it; (b) the snapshot of
    the actual path has no entry at the key of the file; (c) nor has the
    snapshot of the golden path; and when all entries can be read, no path
    has a glob metacharacter and neither root is itself named [.empty],
    update, then compare, both return without failure. *)
Theorem C5_binary_database_left_out (lstat : kinds) (fs : fsys)
    (p goldPath : string) (es : list (string * node)) (path d : string) :
  cleanRoot p = true -> cleanRoot goldPath = true ->
  p <> goldPath -> notNested p goldPath = true ->
  fs !! p = Some (Dir es) -> wfNode (Dir es) = true ->
  copiedAsRead lstat p goldPath (Dir es) = true ->
  (path, File (Some d)) ∈ walk p (Dir es) -> Path.HasPrefix d magic = true ->
  let fs' := fsOf (CompareTreesWithFiltering lstat p goldPath true fs) in
  (exists golden, fs' !! goldPath = Some golden
     /\ forall q x, (q, x) ∈ walk goldPath golden -> isBinaryDB x = false)
  /\ (forall got, snapshotAt fs' p (Some magic) = Some (Some got) ->
                  got !! Path.TrimPrefix path p = None)
  /\ (forall gold, snapshotAt fs' goldPath None = Some (Some gold) ->
                   gold !! Path.TrimPrefix path p = None)
  /\ (Path.Base p <> fileForEmptyDir -> Path.Base goldPath <> fileForEmptyDir ->
      hasMeta p = false -> noMetaNames (Dir es) = true ->
      readable (Dir es) = true ->
      CompareTreesWithFiltering lstat p goldPath true fs = Returned fs' []
      /\ CompareTreesWithFiltering lstat p goldPath false fs' = Returned fs' []).
Proof.
  intros Hpp%cleanRoot_plain Hpg%cleanRoot_plain Hne _ Hp Hwf Hcopy Hin Hd fs'.
  subst fs'. rewrite (fsOf_update_Dir lstat fs p goldPath es) by done.
  set (fs' := <[goldPath := goldenOf p (Dir es)]> (delete goldPath fs)).
  assert (Hp' : fs' !! p = Some (Dir es)).
  { subst fs'. by rewrite lookup_insert_ne, lookup_delete_ne. }
  assert (Hg' : fs' !! goldPath = Some (goldenOf p (Dir es))).
  { subst fs'. by rewrite lookup_insert_eq. }
  split_and!.
  - exists (goldenOf p (Dir es)). split; [done|].
    intros q x (rel & -> & Hq)%walk_plain_elem; [|done].
    pose proof (goldenOf_no_binary (Dir es) eq_refl p "") as Hall.
    rewrite Forall_forall in Hall. apply (Hall _ Hq).
  - intros got. unfold snapshotAt. rewrite Hp'.
    destruct (treeContent p (Dir es) (Some magic)) as [r|] eqn:Hr; [|done].
    intros [= <-]. by apply (binaryDB_not_in_snapshot p (Dir es) path d).
  - intros gold. unfold snapshotAt. rewrite Hg'.
    destruct (treeContent goldPath (goldenOf p (Dir es)) None) as [r|] eqn:Hr; [|done].
    intros [= <-].
    by apply (binaryDB_not_in_golden_snapshot p goldPath p (Dir es) path d).
  - intros Hbp Hbg _ _ Hr.
    assert (Hcmp : compareTrees p goldPath fs' = Returned fs' []).
    { by apply (compareTrees_golden fs' p goldPath p es). }
    split; [by rewrite (update_Dir lstat fs p goldPath es) | done].
Qed.

Lemma C5_binary_database_left_out_witness :
  let fs' := fsOf (CompareTreesWithFiltering allRegular "/t" "/g" true
                     {[ "/t" := tree1 ]}) in
  (exists golden, fs' !! "/g" = Some golden
     /\ forall q x, (q, x) ∈ walk "/g" golden -> isBinaryDB x = false)
  /\ (forall got, snapshotAt fs' "/t" (Some magic) = Some (Some got) ->
                  got !! Path.TrimPrefix "/t/db/sub" "/t" = None)
  /\ (forall gold, snapshotAt fs' "/g" None = Some (Some gold) ->
                   gold !! Path.TrimPrefix "/t/db/sub" "/t" = None)
  /\ CompareTreesWithFiltering allRegular "/t" "/g" true {[ "/t" := tree1 ]}
     = Returned fs' []
  /\ CompareTreesWithFiltering allRegular "/t" "/g" false fs' = Returned fs' [].
Proof.
  destruct (C5_binary_database_left_out allRegular {[ "/t" := tree1 ]} "/t" "/g"
              [("a", File (Some "x"));
               ("db", Dir [("sub", File (Some "GVariant123")); ("sub.d", Dir [])]);
               ("e", Dir [])]
              "/t/db/sub" "GVariant123") as (Ha & Hb & Hc & Hd).
  - reflexivity.
  - reflexivity.
  - discriminate.
  - reflexivity.
  - reflexivity.
  - vm_compute. reflexivity.
  - vm_compute. reflexivity.
  - vm_compute. do 3 right. left.
  - vm_compute. reflexivity.
  - split_and!; [exact Ha | exact Hb | exact Hc | apply Hd | apply Hd].
    all: first [ reflexivity | vm_compute; discriminate ].
Defined.

(** C9, as stated, fails: a regular file that cannot be read stops the
    copy, and the directories after it are not in the golden tree: the
    empty directory gets no golden directory and no marker. *)
Lemma C9_unreadable_file_stops_copy :
  let fs : fsys := {[ "/t" := Dir [("a", File None); ("e", Dir [])] ]} in
  ("/t/e", Dir []) ∈ walk "/t" (Dir [("a", File None); ("e", Dir [])])
  /\ CompareTreesWithFiltering allRegular "/t" "/g" true fs
     = Stopped (<["/g" := Dir []]> fs) [] CannotCopy.
Proof. split; [do 2 right; left | vm_compute; done]. Qed.

(** C9, amended. A directory without entry in an actual tree whose regular
    files can all be read: update mode writes at the corresponding golden
    path a directory that holds the marker and nothing else, and the
    marker has no entry in the snapshot of the actual path nor in the
    snapshot of the golden path. *)
Theorem C9_empty_directory_marker (lstat : kinds) (fs : fsys)
    (p goldPath : string) (es : list (string * node)) (path : string) :
  cleanRoot p = true -> cleanRoot goldPath = true ->
  p <> goldPath -> notNested p goldPath = true ->
  fs !! p = Some (Dir es) -> wfNode (Dir es) = true ->
  (forall q, (q, File None) ∈ walk p (Dir es) -> lstat q <> Regular) ->
  (path, Dir []) ∈ walk p (Dir es) ->
  let fs' := fsOf (CompareTreesWithFiltering lstat p goldPath true fs) in
  let key := Path.TrimPrefix path p +:+ "/" +:+ fileForEmptyDir in
  exists golden,
    fs' !! goldPath = Some golden
    /\ (goldPath +:+ Path.TrimPrefix path p, Dir [(fileForEmptyDir, File (Some ""))])
       ∈ walk goldPath golden
    /\ (forall got, snapshotAt fs' p (Some magic) = Some (Some got) ->
                    got !! key = None)
    /\ (forall gold, snapshotAt fs' goldPath None = Some (Some gold) ->
                     gold !! key = None).
Proof.
  intros Hpp%cleanRoot_plain Hpg%cleanRoot_plain Hne _ Hp Hwf Hread Hin fs' key.
  subst fs'. rewrite update_cases, lookup_delete_ne, Hp by done.
  pose proof (copyNode_fails lstat (Dir es) Hwf eq_refl p goldPath) as Hfails.
  pose proof (copyNode_empty_dir lstat (Dir es) Hwf p goldPath) as Hempty.
  pose proof (wfNode_copyNode lstat (Dir es) Hwf p goldPath) as Hwfc.
  destruct (copyNode lstat p goldPath (Dir es)) as [c [|]]; cbn [fst snd] in *.
  2:{ destruct Hfails as [Hfails _].
      destruct (Hfails eq_refl) as (q & Hq & Hk). by destruct (Hread q Hq). }
  rewrite fsOf_compareTrees. exists (addMarkerNode c).
  apply walk_plain_elem in Hin as (rel & -> & Hin); [|done].
  subst key. rewrite TrimPrefix_app.
  assert (Hkey : forall dir n hdr (r : gmap string string),
            plainPath dir = true -> wfNode n = true ->
            treeContent dir n hdr = Some r ->
            r !! (rel +:+ "/" +:+ fileForEmptyDir) = None).
  { intros dir n hdr r Hd Hn Hr.
    destruct (r !! (rel +:+ "/" +:+ fileForEmptyDir)) as [v|] eqn:Hk; [|done].
    exfalso. apply (snapshot_key_base dir n hdr r _ v Hd Hn Hr Hk).
    by apply Base_app. }
  split_and!.
  - by rewrite lookup_insert_eq.
  - apply walk_plain_elem; [done|]. exists rel. split; [done|].
    by apply Hempty.
  - intros got. unfold snapshotAt.
    rewrite lookup_insert_ne, lookup_delete_ne, Hp by done.
    destruct (treeContent p (Dir es) (Some magic)) as [r|] eqn:Hr; [|done].
    intros [= <-]. by apply (Hkey p (Dir es) (Some magic)).
  - intros gold. unfold snapshotAt. rewrite lookup_insert_eq.
    destruct (treeContent goldPath (addMarkerNode c) None) as [r|] eqn:Hr; [|done].
    intros [= <-]. apply (Hkey goldPath (addMarkerNode c) None); [done| |done].
    by apply wfNode_addMarkerNode.
Qed.

Lemma C9_empty_directory_marker_witness :
  let fs' := fsOf (CompareTreesWithFiltering allRegular "/t" "/g" true
                     {[ "/t" := tree1 ]}) in
  let key := Path.TrimPrefix "/t/e" "/t" +:+ "/" +:+ fileForEmptyDir in
  exists golden,
    fs' !! "/g" = Some golden
    /\ ("/g" +:+ Path.TrimPrefix "/t/e" "/t", Dir [(fileForEmptyDir, File (Some ""))])
       ∈ walk "/g" golden
    /\ (forall got, snapshotAt fs' "/t" (Some magic) = Some (Some got) ->
                    got !! key = None)
    /\ (forall gold, snapshotAt fs' "/g" None = Some (Some gold) ->
                     gold !! key = None).
Proof.
  apply (C9_empty_directory_marker allRegular {[ "/t" := tree1 ]} "/t" "/g"
           [("a", File (Some "x"));
            ("db", Dir [("sub", File (Some "GVariant123")); ("sub.d", Dir [])]);
            ("e", Dir [])]
           "/t/e").
  - reflexivity.
  - reflexivity.
  - discriminate.
  - reflexivity.
  - reflexivity.
  - vm_compute. reflexivity.
  - intros q Hq%list_elem_of_In. vm_compute in Hq. intuition discriminate.
  - vm_compute. do 5 right. left.
Defined.

(** * Further properties of the code *)

(** ** MakeReadOnly and its cleanup *)

Section make_read_only.

(** The cleanup that a call registers undoes the call. *)
Lemma MakeReadOnly_undone (dest : string) (st st' : testState) :
  MakeReadOnly dest st = Some st' ->
  runCleanups (cleanups st') (perms st') = runCleanups (cleanups st) (perms st).
Proof.
  unfold MakeReadOnly, Chmod.
  destruct (perms st !! dest) as [mode|] eqn:Hmode; [|done].
  intros [= <-]. cbn [runCleanups cleanups perms cleanupDest cleanupMode].
  unfold Chmod. rewrite lookup_insert_eq, insert_insert_eq.
  by rewrite insert_id.
Qed.

End make_read_only.

(** X1. After any sequence of calls of [MakeReadOnly] in one test, also
    with a path made read only more than once, the cleanups that run at
    the end of the test put back the modes the test started with, and
    none of them fails. *)
Theorem X1_cleanups_restore_modes (dests : list string) (ms : modes)
    (st : testState) :
  makeAllReadOnly dests {| perms := ms; cleanups := [] |} = Some st ->
  runCleanups (cleanups st) (perms st) = (ms, true).
Proof.
  intros Hall.
  assert (Hgen : forall st0 st1,
            makeAllReadOnly dests st0 = Some st1 ->
            runCleanups (cleanups st1) (perms st1)
            = runCleanups (cleanups st0) (perms st0)).
  { clear. induction dests as [|dest rest IH]; intros st0 st1; cbn [makeAllReadOnly].
    - by intros [= <-].
    - destruct (MakeReadOnly dest st0) as [st'|] eqn:Hcall; [|done].
      intros Hrest. rewrite (IH _ _ Hrest). by apply (MakeReadOnly_undone dest). }
  by rewrite (Hgen _ _ Hall).
Qed.

Lemma X1_cleanups_restore_modes_witness :
  runCleanups
    (cleanups {| perms := <["/d" := readOnlyMode]> (<["/f" := readOnlyMode]>
                             {[ "/d" := 493%N; "/f" := 420%N ]});
                 cleanups := [ {| cleanupDest := "/d"; cleanupMode := readOnlyMode |};
                               {| cleanupDest := "/f"; cleanupMode := 420%N |};
                               {| cleanupDest := "/d"; cleanupMode := 493%N |} ] |})
    (perms {| perms := <["/d" := readOnlyMode]> (<["/f" := readOnlyMode]>
                             {[ "/d" := 493%N; "/f" := 420%N ]});
              cleanups := [ {| cleanupDest := "/d"; cleanupMode := readOnlyMode |};
                            {| cleanupDest := "/f"; cleanupMode := 420%N |};
                            {| cleanupDest := "/d"; cleanupMode := 493%N |} ] |})
  = ({[ "/d" := 493%N; "/f" := 420%N ]}, true).
Proof.
  apply (X1_cleanups_restore_modes ["/d"; "/f"; "/d"]).
  vm_compute. reflexivity.
Defined.

(** ** The snapshot, entry by entry *)

Section snapshot_entries.

#[local] Arguments String.append !_ _ / : simpl nomatch.

(** One step of the walk of [treeContent]. *)
Lemma treeContentFn_step (dir : string) (hdr : option string)
    (m : gmap string string) (path : string) (info : node) :
  treeContentFn dir hdr m (path, info)
  = if decide (Path.Base path = fileForEmptyDir) then Some m
    else match info with
         | File None => None
         | _ => Some (match recordedAs hdr info with
                      | Some c => <[Path.TrimPrefix path dir := c]> m
                      | None => m
                      end)
         end.
Proof.
  unfold treeContentFn, recordedAs.
  destruct (decide (Path.Base path = fileForEmptyDir)); [done|].
  destruct info as [[d|]|es]; [|done..].
  destruct hdr as [h|]; [|done]. by destruct (Path.HasPrefix d h).
Qed.

(** The walk fails exactly on an entry, not named as the marker, that
    cannot be read. *)
Lemma walkM_treeContentFn_None (dir : string) (hdr : option string)
    (l : list (string * node)) (m : gmap string string) :
  walkM (treeContentFn dir hdr) m l = None
  <-> exists path, (path, File None) ∈ l /\ Path.Base path <> fileForEmptyDir.
Proof.
  revert m. induction l as [|[path info] l IH]; intros m; cbn [walkM].
  - split; [done | by intros (? & ?%elem_of_nil & _)].
  - rewrite treeContentFn_step.
    assert (Htail : forall m',
              ~ (info = File None /\ Path.Base path <> fileForEmptyDir) ->
              walkM (treeContentFn dir hdr) m' l = None
              <-> exists q, (q, File None) ∈ (path, info) :: l
                            /\ Path.Base q <> fileForEmptyDir).
    { intros m' Hhead. rewrite IH. split.
      - intros (q & Hq & Hqb). exists q. split; [by right | done].
      - intros (q & Hq & Hqb). apply elem_of_cons in Hq as [Heq|Hq]; [|by exists q].
        injection Heq as -> <-. by destruct Hhead. }
    destruct (decide (Path.Base path = fileForEmptyDir)) as [Hb|Hb].
    + apply Htail. by intros [_ ?].
    + destruct info as [[d|]|es].
      * apply Htail. by intros [? _].
      * split; [|done]. intros _. exists path. split; [by left | done].
      * apply Htail. by intros [? _].
Qed.

(** Every entry of the result was in the map at the start or is what the
    callback records for a walked entry. *)
Lemma walkM_treeContentFn_recorded_inv (dir : string) (hdr : option string)
    (l : list (string * node)) (m r : gmap string string) (k v : string) :
  walkM (treeContentFn dir hdr) m l = Some r ->
  r !! k = Some v ->
  m !! k = Some v
  \/ exists path info, (path, info) ∈ l /\ Path.Base path <> fileForEmptyDir
                        /\ k = Path.TrimPrefix path dir
                        /\ recordedAs hdr info = Some v.
Proof.
  revert m. induction l as [|[path info] l IH]; intros m Hw Hk; cbn [walkM] in Hw.
  - left. congruence.
  - destruct (treeContentFn dir hdr m (path, info)) as [m'|] eqn:Hfn; [|done].
    destruct (IH m' Hw Hk) as [Hm'|(q & x & Hin & Hrest)];
      [|right; exists q, x; split; [by right | done]].
    rewrite treeContentFn_step in Hfn.
    destruct (decide (Path.Base path = fileForEmptyDir)) as [Hb|Hb];
      [left; congruence|].
    assert (Hm : m' = match recordedAs hdr info with
                      | Some c => <[Path.TrimPrefix path dir := c]> m
                      | None => m
                      end) by (destruct info as [[d|]|es]; congruence).
    destruct (recordedAs hdr info) as [c|] eqn:Hrec; [|left; congruence].
    subst m'. destruct (decide (k = Path.TrimPrefix path dir)) as [->|Hne].
    + rewrite lookup_insert_eq in Hm'. injection Hm' as ->.
      right. exists path, info. split; [by left | done].
    + left. by rewrite lookup_insert_ne in Hm'.
Qed.

(** With distinct keys, what is recorded for an entry stays. *)
Lemma walkM_treeContentFn_recorded (dir : string) (hdr : option string)
    (l : list (string * node)) (m r : gmap string string)
    (path : string) (info : node) (v : string) :
  NoDup ((fun it => Path.TrimPrefix it.1 dir) <$> l) ->
  (path, info) ∈ l -> Path.Base path <> fileForEmptyDir ->
  recordedAs hdr info = Some v ->
  walkM (treeContentFn dir hdr) m l = Some r ->
  r !! Path.TrimPrefix path dir = Some v.
Proof.
  intros Hnd Hin Hb Hrec. revert m.
  induction l as [|[q x] l IH]; intros m Hw; [by apply elem_of_nil in Hin|].
  rewrite fmap_cons in Hnd. apply NoDup_cons in Hnd as [Hnotin Hnd].
  cbn [walkM] in Hw.
  destruct (treeContentFn dir hdr m (q, x)) as [m'|] eqn:Hfn; [|done].
  apply elem_of_cons in Hin as [[= <- <-]|Hin]; [|by apply (IH Hnd Hin m')].
  rewrite treeContentFn_step in Hfn.
  destruct (decide (Path.Base path = fileForEmptyDir)); [done|].
  rewrite Hrec in Hfn.
  assert (Hm : m' = <[Path.TrimPrefix path dir := v]> m)
    by (destruct info as [[d|]|es]; congruence).
  assert (Hother : Forall (fun it => Path.TrimPrefix it.1 dir
                                     <> Path.TrimPrefix path dir) l).
  { apply Forall_forall. intros it Hit Heq. apply Hnotin.
    apply list_elem_of_fmap. exists it. by split. }
  rewrite (walkM_treeContentFn_other _ _ _ _ _ _ Hother Hw), Hm.
  by rewrite lookup_insert_eq.
Qed.

(** Below a plain root the keys of the walked entries of a well-formed
    tree are distinct. *)
Lemma walk_keys_NoDup (dir : string) (n : node) :
  plainPath dir = true -> wfNode n = true ->
  NoDup ((fun it => Path.TrimPrefix it.1 dir) <$> walk dir n).
Proof.
  intros Hdir Hwf.
  assert (Hw : walk dir n = (fun it => (dir +:+ it.1, it.2)) <$> rwalk "" n).
  { rewrite <- (append_nil_r dir) at 1. by apply walk_plain. }
  rewrite Hw, <- list_fmap_compose.
  erewrite list_fmap_ext; [by apply (rwalk_NoDup n Hwf "")|].
  intros i [rel x] _. simpl. by rewrite TrimPrefix_app.
Qed.

End snapshot_entries.

(** X3. [treeContent] returns an error exactly when the tree has an entry
    that cannot be read and whose name is not [.empty], whatever the
    headers to ignore; a marker that cannot be read is skipped before it is
    read. *)
Theorem X3_treeContent_error (dir : string) (n : node)
    (ignoreHeaders : option string) :
  treeContent dir n ignoreHeaders = None
  <-> exists path, (path, File None) ∈ walk dir n
                   /\ Path.Base path <> fileForEmptyDir.
Proof. apply walkM_treeContentFn_None. Qed.



(** ** Markers, roots and keys *)

Section marker_facts.

#[local] Arguments String.append !_ _ / : simpl nomatch.

Lemma lastElem_no_sep (s : string) : Path.has_sep s = false -> Path.lastElem s = s.
Proof.
  destruct s as [|c s]; [done|]. simpl.
  intros [Hc Hs]%orb_false_elim. by rewrite Hs, Hc.
Qed.

(** The last element of a path joined with a name is the name. *)
Lemma Base_Join (q name : string) :
  validName name = true -> Path.Base (Path.Join q name) = name.
Proof.
  intros Hname.
  assert (Hbase : Path.Base name = name).
  { apply validName_spec in Hname as [Hne Hsep]. unfold Path.Base.
    rewrite stripSeps_no_sep by done. destruct name; [done|].
    by apply lastElem_no_sep. }
  unfold Path.Join.
  destruct (String.eqb q ""); [done|].
  destruct (String.eqb q "."); [done|].
  destruct (String.eqb q "/"); [by apply (Base_app "")|].
  by apply Base_app.
Qed.

(** The walk of [treeContent] over a tree with its markers added. *)
Lemma walkM_addMarkerNode (dir : string) (hdr : option string) (n : node) :
  forall (path : string) (m : gmap string string),
    walkM (treeContentFn dir hdr) m (walk path (addMarkerNode n))
    = walkM (treeContentFn dir hdr) m (walk path n).
Proof.
  induction n as [d|es IH] using node_tree_ind; intros path m; [done|].
  rewrite addMarkerNode_Dir, !walk_Dir. cbn [walkM].
  assert (Hroot : forall es', treeContentFn dir hdr m (path, Dir es')
                              = treeContentFn dir hdr m (path, Dir es)) by done.
  rewrite Hroot. clear Hroot.
  destruct (treeContentFn dir hdr m (path, Dir es)) as [m'|]; [|done].
  assert (Haux : forall l,
            Forall (fun e => forall path m,
                      walkM (treeContentFn dir hdr) m (walk path (addMarkerNode e.2))
                      = walkM (treeContentFn dir hdr) m (walk path e.2)) l ->
            forall m0,
              walkM (treeContentFn dir hdr) m0
                (flat_map (fun e => walk (Path.Join path e.1) e.2) (markEntry <$> l))
              = walkM (treeContentFn dir hdr) m0
                  (flat_map (fun e => walk (Path.Join path e.1) e.2) l)).
  { induction 1 as [|[name c] l Hc _ IHl]; intros m0; [done|].
    rewrite fmap_cons. cbn [flat_map markEntry fst snd] in *.
    rewrite !walkM_app, Hc.
    destruct (walkM (treeContentFn dir hdr) m0 (walk (Path.Join path name) c));
      [apply IHl | done]. }
  destruct es as [|e es'].
  - cbn [flat_map emptyMarker fst snd walk app walkM].
    rewrite treeContentFn_step, Base_Join by done.
    by rewrite decide_True.
  - by apply Haux.
Qed.

End marker_facts.

(** X5. The markers that [addEmptyMarker] adds are invisible to
    [treeContent]: the snapshot of a tree with its markers added, taken at
    any path and with any headers to ignore, is the snapshot of the tree
    itself, error included. *)
Theorem X5_markers_do_not_change_snapshot (dir : string) (n : node)
    (ignoreHeaders : option string) :
  treeContent dir (addMarkerNode n) ignoreHeaders = treeContent dir n ignoreHeaders.
Proof. unfold treeContent. apply walkM_addMarkerNode. Qed.

(** X6. The snapshot does not depend on where the tree is: a well-formed
    tree has the same snapshot at two cleaned root paths, as long as both
    or neither of them end in the element [.empty]. *)
Theorem X6_snapshot_independent_of_root (r1 r2 : string) (n : node)
    (ignoreHeaders : option string) :
  cleanRoot r1 = true -> cleanRoot r2 = true -> wfNode n = true ->
  (Path.Base r1 = fileForEmptyDir <-> Path.Base r2 = fileForEmptyDir) ->
  treeContent r1 n ignoreHeaders = treeContent r2 n ignoreHeaders.
Proof.
  intros H1%cleanRoot_plain H2%cleanRoot_plain Hwf Hbase. unfold treeContent.
  rewrite (walk_cons r1 n), (walk_cons r2 n). cbn [walkM].
  assert (Hroot : treeContentFn r1 ignoreHeaders ∅ (r1, n)
                  = treeContentFn r2 ignoreHeaders ∅ (r2, n)).
  { rewrite !treeContentFn_step, !TrimPrefix_self.
    destruct (decide (Path.Base r1 = fileForEmptyDir)) as [Hb|Hb].
    - by rewrite decide_True by by apply Hbase.
    - rewrite decide_False; [done|]. intros Hb2. by apply Hb, Hbase. }
  rewrite Hroot. destruct (treeContentFn r2 ignoreHeaders ∅ (r2, n)) as [m|]; [|done].
  by rewrite !treeContent_tail.
Qed.

Lemma X6_snapshot_independent_of_root_witness :
  treeContent "/tmp/actual" tree1 (Some magic) = treeContent "/golden" tree1 (Some magic).
Proof.
  apply X6_snapshot_independent_of_root.
  - reflexivity.
  - reflexivity.
  - vm_compute. reflexivity.
  - vm_compute. split; discriminate.
Defined.

(** X7. Below a cleaned root every key of a snapshot is the empty string,
    for the root, or starts with a separator. *)
Theorem X7_keys_start_with_separator (dir : string) (n : node)
    (ignoreHeaders : option string) (r : gmap string string) (k v : string) :
  cleanRoot dir = true ->
  treeContent dir n ignoreHeaders = Some r ->
  r !! k = Some v ->
  k = "" \/ exists t, k = "/" +:+ t.
Proof.
  intros Hdir%cleanRoot_plain Htc Hk. unfold treeContent in Htc.
  destruct (walkM_treeContentFn_inv _ _ _ _ _ _ _ Htc Hk)
    as [Hm|(path & info & Hin & _ & -> & _)]; [by rewrite lookup_empty in Hm|].
  apply walk_plain_elem in Hin as (rel & -> & Hin); [|done].
  rewrite TrimPrefix_app.
  pose proof (rwalk_paths n "") as Hall. rewrite Forall_forall in Hall.
  destruct (Hall _ Hin) as (s & Hs & Htail). simpl in Hs. by subst rel.
Qed.

Lemma X7_keys_start_with_separator_witness :
  "/a" = "" \/ exists t, "/a" = "/" +:+ t.
Proof.
  apply (X7_keys_start_with_separator "/t" (Dir [("a", File (Some "x"))]) None
           (<["/a" := "x"]> (<["" := ""]> ∅)) "/a" "x").
  - reflexivity.
  - vm_compute. reflexivity.
  - vm_compute. reflexivity.
Defined.

(** ** The copy and the markers, as tree transformations *)

Section tree_transformations.

Lemma hasNoBinaryDB_not_binary (n : node) :
  hasNoBinaryDB n = true -> isBinaryDB n = false.
Proof.
  destruct n; cbn [hasNoBinaryDB]; intros [H _]%andb_true_iff;
    by apply negb_true_iff in H.
Qed.

(** Without a binary database among the entries nothing is ignored. *)
Lemma ignoreDconfDB_nil (src : string) (es : list (string * node)) :
  Forall (fun e => isBinaryDB e.2 = false) es -> ignoreDconfDB src es = [].
Proof.
  induction 1 as [|[name c] l Hc _ IH]; [done|]. cbn [ignoreDconfDB].
  destruct c as [[d|]|es']; [|done..]. simpl in Hc. by rewrite Hc.
Qed.

Lemma filter_keepEntry_nil (l : list (string * node)) :
  List.filter (keepEntry []) l = l.
Proof.
  induction l as [|e l IH]; [done|]. cbn [List.filter]. unfold keepEntry at 1.
  rewrite bool_decide_eq_false_2 by apply not_elem_of_nil. cbn [negb].
  by rewrite IH.
Qed.

Lemma copyKept_no_binary (n : node) (src : string) :
  hasNoBinaryDB n = true -> copyKept src n = n.
Proof.
  revert src. induction n as [d|es IH] using node_tree_ind; intros src Hn; [done|].
  apply hasNoBinaryDB_Dir in Hn.
  rewrite copyKept_Dir, ignoreDconfDB_nil.
  2:{ eapply Forall_impl; [exact Hn|]. intros e. apply hasNoBinaryDB_not_binary. }
  rewrite filter_keepEntry_nil. f_equal.
  rewrite <- (list_fmap_id es) at 2. apply Forall_fmap_ext_1.
  rewrite Forall_forall in IH, Hn. apply Forall_forall. intros [name c] He.
  unfold copyEntry. cbn [fst snd id]. f_equal. apply (IH _ He). by apply (Hn _ He).
Qed.

Lemma addMarkerNode_idem (n : node) :
  addMarkerNode (addMarkerNode n) = addMarkerNode n.
Proof.
  induction n as [d|es IH] using node_tree_ind; [done|].
  rewrite addMarkerNode_Dir. destruct es as [|e es']; [done|].
  rewrite addMarkerNode_Dir.
  change (Dir (markEntry <$> (markEntry <$> e :: es')) = Dir (markEntry <$> e :: es')).
  f_equal. rewrite <- list_fmap_compose. apply Forall_fmap_ext_1.
  eapply Forall_impl; [exact IH|]. intros [name c] Hc.
  unfold markEntry, compose. cbn [fst snd] in *. by rewrite Hc.
Qed.

(** No directory of a tree with its markers added is empty. *)
Lemma addMarkerNode_no_empty (n : node) (path : string) :
  Forall (fun it => it.2 <> Dir []) (walk path (addMarkerNode n)).
Proof.
  revert path. induction n as [d|es IH] using node_tree_ind; intros path.
  - by repeat constructor.
  - rewrite addMarkerNode_Dir, walk_Dir. destruct es as [|e es'].
    + by repeat constructor.
    + constructor; [done|].
      induction IH as [|[name c] l Hc _ IHl]; [constructor|].
      rewrite fmap_cons. cbn [flat_map markEntry fst snd].
      apply Forall_app. split; [apply Hc | apply IHl].
Qed.

End tree_transformations.

(** X8. A directory in which no file starts with [GVariant], and whose
    entries are all copied and read in the copy as in place, is copied as
    it is: update mode's copy to a free destination succeeds and holds the
    same tree. *)
Theorem X8_copy_without_binary_database (lstat : kinds) (fs : fsys)
    (src dst : string) (es : list (string * node)) :
  cleanRoot src = true -> cleanRoot dst = true -> notNested src dst = true ->
  fs !! src = Some (Dir es) -> fs !! dst = None ->
  hasNoBinaryDB (Dir es) = true ->
  copiedAsRead lstat src dst (Dir es) = true ->
  CopyTree lstat src dst fs = (<[dst := Dir es]> fs, true).
Proof.
  intros _ _ _ Hsrc Hdst Hnb Hes.
  rewrite (CopyTree_asRead lstat fs src dst es) by done.
  by rewrite copyKept_no_binary.
Qed.

Lemma X8_copy_without_binary_database_witness :
  CopyTree allRegular "/t" "/g"
    {[ "/t" := Dir [("a", File (Some "x")); ("e", Dir [])] ]}
  = (<["/g" := Dir [("a", File (Some "x")); ("e", Dir [])]]>
       {[ "/t" := Dir [("a", File (Some "x")); ("e", Dir [])] ]}, true).
Proof.
  apply X8_copy_without_binary_database.
  - reflexivity.
  - reflexivity.
  - reflexivity.
  - reflexivity.
  - reflexivity.
  - vm_compute. reflexivity.
  - vm_compute. reflexivity.
Defined.

(** X10. After [addEmptyMarker] no directory below the path is empty, and
    a second run changes nothing. *)
Theorem X10_no_empty_directory_left (fs fs' : fsys) (p : string) :
  addEmptyMarker p fs = Some fs' ->
  (exists n, fs' !! p = Some n
             /\ forall path es, (path, Dir es) ∈ walk p n -> es <> [])
  /\ addEmptyMarker p fs' = Some fs'.
Proof.
  unfold addEmptyMarker at 1. destruct (fs !! p) as [n|] eqn:Hp; [|done].
  intros [= <-]. split.
  - exists (addMarkerNode n). split; [by rewrite lookup_insert_eq|].
    intros path es Hin ->.
    pose proof (addMarkerNode_no_empty n p) as Hall.
    rewrite Forall_forall in Hall. by apply (Hall _ Hin).
  - unfold addEmptyMarker. rewrite lookup_insert_eq, insert_insert_eq.
    by rewrite addMarkerNode_idem.
Qed.

Lemma X10_no_empty_directory_left_witness :
  (exists n, (<["/t" := addMarkerNode tree1]> ({[ "/t" := tree1 ]} : fsys)) !! "/t" = Some n
             /\ forall path es, (path, Dir es) ∈ walk "/t" n -> es <> [])
  /\ addEmptyMarker "/t" (<["/t" := addMarkerNode tree1]> {[ "/t" := tree1 ]})
     = Some (<["/t" := addMarkerNode tree1]> {[ "/t" := tree1 ]}).
Proof.
  apply (X10_no_empty_directory_left {[ "/t" := tree1 ]}).
  reflexivity.
Defined.

(** X11. The names that [ignoreDconfDB] returns are exactly those of the
    entries that are read and start with [GVariant]; with distinct names
    in the directory, the name of a sub-directory is never returned. *)
Theorem X11_ignoreDconfDB_names (src name : string) (es : list (string * node)) :
  (name ∈ ignoreDconfDB src es
   <-> exists d, (name, File (Some d)) ∈ es /\ Path.HasPrefix d magic = true)
  /\ (NoDup (fst <$> es) ->
      forall es', (name, Dir es') ∈ es -> name ∉ ignoreDconfDB src es).
Proof.
  split; [apply ignoreDconfDB_spec|].
  intros Hnd es' Hdir (d & Hfile & _)%ignoreDconfDB_spec.
  by pose proof (NoDup_fst_unique es name _ _ Hnd Hdir Hfile).
Qed.

(** ** Calls of CompareTreesWithFiltering *)

Section call_facts.

(** The failures a comparison can record. *)
Lemma failuresOf_compareTrees (fs : fsys) (p goldPath : string) :
  failuresOf (compareTrees p goldPath fs) = []
  \/ exists goldContent gotContent,
       goldContent <> gotContent
       /\ snapshotAt fs goldPath None = Some goldContent
       /\ snapshotAt fs p (Some magic) = Some gotContent
       /\ compareTrees p goldPath fs
          = Returned fs [ContentDiffers goldContent gotContent].
Proof.
  rewrite compareTrees_spec.
  destruct (snapshotAt fs p (Some magic)) as [got|]; [|by left].
  destruct (snapshotAt fs goldPath None) as [gold|]; [|by left].
  destruct (decide (gold = got)) as [|Hne]; [by left|].
  right. by exists gold, got.
Qed.


End call_facts.

(** X12. Update mode is idempotent: a second call in update mode, on the
    file system the first one leaves, has the same outcome and leaves the
    same file system. *)
Theorem X12_update_twice (lstat : kinds) (fs : fsys) (p goldPath : string) :
  CompareTreesWithFiltering lstat p goldPath true
    (fsOf (CompareTreesWithFiltering lstat p goldPath true fs))
  = CompareTreesWithFiltering lstat p goldPath true fs.
Proof.
  rewrite <- (update_delete lstat (fsOf _)), delete_fsOf_update.
  apply update_delete.
Qed.





(** X17. With no glob metacharacter in the actual path nor in a name of
    the tree it holds, a call records at most one soft failure, and it is
    that the two snapshots, both built, differ: the check of the binary
    dconf databases, which runs only once every entry of the actual tree
    was read, records none. *)
Theorem X17_at_most_one_failure (lstat : kinds) (fs : fsys) (p goldPath : string)
    (update : bool) :
  hasMeta p = false ->
  (forall n, fs !! p = Some n -> wfNode n = true /\ noMetaNames n = true) ->
  let o := CompareTreesWithFiltering lstat p goldPath update fs in
  failuresOf o = []
  \/ exists goldContent gotContent,
       goldContent <> gotContent
       /\ snapshotAt (fsOf o) goldPath None = Some goldContent
       /\ snapshotAt (fsOf o) p (Some magic) = Some gotContent
       /\ o = Returned (fsOf o) [ContentDiffers goldContent gotContent].
Proof.
  intros _ _.
  assert (Hcmp : forall fs0,
    failuresOf (compareTrees p goldPath fs0) = []
    \/ exists goldContent gotContent,
         goldContent <> gotContent
         /\ snapshotAt (fsOf (compareTrees p goldPath fs0)) goldPath None
            = Some goldContent
         /\ snapshotAt (fsOf (compareTrees p goldPath fs0)) p (Some magic)
            = Some gotContent
         /\ compareTrees p goldPath fs0
            = Returned (fsOf (compareTrees p goldPath fs0))
                [ContentDiffers goldContent gotContent]).
  { intros fs0. rewrite fsOf_compareTrees. apply failuresOf_compareTrees. }
  cbn zeta. destruct update; [|apply Hcmp]. rewrite update_cases.
  destruct (delete goldPath fs !! p) as [[d|es]|]; [by left | | by left].
  destruct (copyNode lstat p goldPath (Dir es)) as [c [|]]; [apply Hcmp | by left].
Qed.

Lemma X17_at_most_one_failure_witness :
  let o := CompareTreesWithFiltering allRegular "/t" "/g" false {[ "/t" := tree1 ]} in
  failuresOf o = []
  \/ exists goldContent gotContent,
       goldContent <> gotContent
       /\ snapshotAt (fsOf o) "/g" None = Some goldContent
       /\ snapshotAt (fsOf o) "/t" (Some magic) = Some gotContent
       /\ o = Returned (fsOf o) [ContentDiffers goldContent gotContent].
Proof.
  apply (X17_at_most_one_failure allRegular {[ "/t" := tree1 ]} "/t" "/g" false).
  - reflexivity.
  - intros n Hn. rewrite lookup_singleton_eq in Hn. injection Hn as <-.
    vm_compute. done.
Defined.

(** X18. The filter of [treeContent] only removes entries: below a plain
    root, every entry of the snapshot of a well-formed tree taken with
    headers to ignore is an entry of the snapshot taken without. *)
Theorem X18_filter_only_removes (dir : string) (n : node) (h : string)
    (filtered full : gmap string string) :
  plainPath dir = true -> wfNode n = true ->
  treeContent dir n (Some h) = Some filtered ->
  treeContent dir n None = Some full ->
  filtered ⊆ full.
Proof.
  intros Hdir Hwf Hf Hfull. apply map_subseteq_spec. intros k v Hk.
  unfold treeContent in Hf, Hfull.
  destruct (walkM_treeContentFn_recorded_inv _ _ _ _ _ _ _ Hf Hk)
    as [Hm|(path & info & Hin & Hb & -> & Hrec)]; [by rewrite lookup_empty in Hm|].
  apply (walkM_treeContentFn_recorded dir None (walk dir n) ∅ full path info);
    [by apply walk_keys_NoDup | done.. | | done].
  destruct info as [[d|]|es]; simpl in *; [|done..].
  by destruct (Path.HasPrefix d h).
Qed.

Lemma X18_filter_only_removes_witness :
  (<["/a" := "x"]> (<["" := ""]> ∅) : gmap string string)
  ⊆ <["/b" := "GVariant"]> (<["/a" := "x"]> (<["" := ""]> ∅)).
Proof.
  apply (X18_filter_only_removes "/t"
           (Dir [("a", File (Some "x")); ("b", File (Some "GVariant"))]) magic).
  - reflexivity.
  - vm_compute. reflexivity.
  - vm_compute. reflexivity.
  - vm_compute. reflexivity.
Defined.

(** X19. Unless the copy fails, a call in update mode reports what a call
    without update reports on the file system it leaves. *)
Theorem X19_update_reports_comparison (lstat : kinds) (fs : fsys)
    (p goldPath : string) :
  (forall fs' failures,
     CompareTreesWithFiltering lstat p goldPath true fs
     <> Stopped fs' failures CannotCopy) ->
  CompareTreesWithFiltering lstat p goldPath true fs
  = CompareTreesWithFiltering lstat p goldPath false
      (fsOf (CompareTreesWithFiltering lstat p goldPath true fs)).
Proof.
  rewrite update_cases. cbn [CompareTreesWithFiltering]. intros Hcopy.
  destruct (delete goldPath fs !! p) as [[d|es]|] eqn:Hp.
  - by destruct (Hcopy (delete goldPath fs) []).
  - destruct (copyNode lstat p goldPath (Dir es)) as [c [|]].
    + by rewrite fsOf_compareTrees.
    + by destruct (Hcopy (<[goldPath := c]> (delete goldPath fs)) []).
  - cbn [fsOf]. rewrite compareTrees_absent; [done..|]. by rewrite lookup_delete_eq.
Qed.

Lemma X19_update_reports_comparison_witness :
  CompareTreesWithFiltering allRegular "/t" "/g" true {[ "/t" := tree1 ]}
  = CompareTreesWithFiltering allRegular "/t" "/g" false
      (fsOf (CompareTreesWithFiltering allRegular "/t" "/g" true {[ "/t" := tree1 ]})).
Proof.
  apply X19_update_reports_comparison.
  intros fs' failures. vm_compute. discriminate.
Defined.

(** ** What update mode keeps *)

Section golden_keeps.

#[local] Arguments String.append !_ _ / : simpl nomatch.

(** A non-directory entry of the actual tree that is not a binary
    database is in the golden tree, at the same relative path. *)
Lemma goldenOf_keeps_file (c : node) :
  wfNode c = true ->
  forall src rel0 rel d,
    isBinaryDB (File d) = false ->
    (rel, File d) ∈ rwalk rel0 c ->
    (rel, File d) ∈ rwalk rel0 (goldenOf src c).
Proof.
  induction c as [d0|es IH] using node_tree_ind; intros Hwf src rel0 rel d Hd Hin.
  - done.
  - rewrite rwalk_Dir in Hin. apply elem_of_cons in Hin as [Heq|Hin]; [done|].
    apply list_elem_of_In, in_flat_map in Hin as ([name c] & He & Hin).
    apply list_elem_of_In in He, Hin. cbn [fst snd] in Hin.
    apply wfNode_Dir in Hwf as (_ & Hnd & Hwf).
    rewrite Forall_forall in IH, Hwf.
    assert (Hc : isBinaryDB c = false).
    { destruct c as [d'|es']; [|done]. cbn in Hin.
      apply list_elem_of_singleton in Hin. by injection Hin as _ <-. }
    assert (Hkeep : (name, c) ∈ List.filter (keepEntry (ignoreDconfDB src es)) es).
    { apply list_elem_of_In, filter_In. split; [by apply list_elem_of_In|].
      rewrite (keepEntry_isBinaryDB src es) by done. cbn [snd]. by rewrite Hc. }
    unfold goldenOf. rewrite copyKept_Dir, addMarkerNode_Dir, rwalk_Dir.
    apply elem_of_cons. right.
    destruct (List.filter (keepEntry (ignoreDconfDB src es)) es) as [|e l];
      [by apply elem_of_nil in Hkeep|].
    change ((rel, File d)
            ∈ flat_map (fun e => rwalk (rel0 +:+ "/" +:+ e.1) e.2)
                (markEntry <$> (copyEntry src <$> (e :: l)))).
    apply list_elem_of_In, in_flat_map.
    exists (markEntry (copyEntry src (name, c))). split.
    + apply list_elem_of_In. by do 2 apply list_elem_of_fmap_2.
    + apply list_elem_of_In. cbn [markEntry copyEntry fst snd].
      by apply (IH (name, c) He (Hwf _ He)).
Qed.

End golden_keeps.

(** X20. When every kept entry is copied and reads in the copy as in
    place, update mode loses nothing but the binary databases: every other
    non-directory entry of the actual tree is in the golden tree it
    writes, at the same relative path and with the same content. *)
Theorem X20_update_keeps_other_files (lstat : kinds) (fs : fsys)
    (p goldPath : string) (es : list (string * node)) (path : string)
    (d : option string) :
  cleanRoot p = true -> cleanRoot goldPath = true ->
  p <> goldPath -> notNested p goldPath = true ->
  fs !! p = Some (Dir es) -> wfNode (Dir es) = true ->
  copiedAsRead lstat p goldPath (Dir es) = true ->
  (path, File d) ∈ walk p (Dir es) -> isBinaryDB (File d) = false ->
  exists golden,
    fsOf (CompareTreesWithFiltering lstat p goldPath true fs) !! goldPath
    = Some golden
    /\ (goldPath +:+ Path.TrimPrefix path p, File d) ∈ walk goldPath golden.
Proof.
  intros Hpp%cleanRoot_plain Hpg%cleanRoot_plain Hne _ Hp Hwf Hcopy Hin Hd.
  rewrite (fsOf_update_Dir lstat fs p goldPath es) by done.
  exists (goldenOf p (Dir es)). split; [by rewrite lookup_insert_eq|].
  apply walk_plain_elem in Hin as (rel & -> & Hin); [|done].
  rewrite TrimPrefix_app. apply walk_plain_elem; [done|].
  exists rel. split; [done|]. by apply goldenOf_keeps_file.
Qed.

Lemma X20_update_keeps_other_files_witness :
  exists golden,
    fsOf (CompareTreesWithFiltering allRegular "/t" "/g" true {[ "/t" := tree1 ]})
    !! "/g" = Some golden
    /\ ("/g" +:+ Path.TrimPrefix "/t/a" "/t", File (Some "x")) ∈ walk "/g" golden.
Proof.
  apply (X20_update_keeps_other_files allRegular {[ "/t" := tree1 ]} "/t" "/g"
           [("a", File (Some "x"));
            ("db", Dir [("sub", File (Some "GVariant123")); ("sub.d", Dir [])]);
            ("e", Dir [])]).
  - reflexivity.
  - reflexivity.
  - discriminate.
  - reflexivity.
  - reflexivity.
  - vm_compute. reflexivity.
  - vm_compute. reflexivity.
  - vm_compute. right. left.
  - reflexivity.
Defined.
